(** * Weapon-arrests dashboard: a shallow embedding of [analysis/fianl_data.py]

    The script loads three CSV tables with pandas, filters the monthly
    table by a year range chosen on a slider, and renders metrics, charts
    and tables with Streamlit.  This file embeds the data the script
    handles, the pandas operations it calls, and the script itself as a
    small effectful program, and proves properties of them.

    Numbers.  An integer column is numpy [int64]: a [Z] with the
    wrap-around written out.  A floating column is numpy [float64]; its
    finite values are taken as exact rationals, its special values [inf],
    [-inf] and [nan] and the IEEE rules for them are modelled as they are.
    The operations of module [Np] compute on the finite values exactly,
    without rounding and without overflow.  Module [Ieee] leaves both
    open: what depends on them is proved there for every addition and
    division that obey the rules of float64, and for every order of
    summation. *)

From Stdlib Require Import ZArith QArith Qcanon Ascii String.
From stdpp Require Import base numbers list sorting gmap strings.

Local Open Scope Z_scope.

(** ** numpy scalars *)

Module Np.

(** [int64] arithmetic wraps around silently. *)
Definition wrap64 (z : Z) : Z := (z + 2 ^ 63) `mod` 2 ^ 64 - 2 ^ 63.

(** [float64]: a finite value, or one of the three special values. *)
Inductive float64 : Type :=
| Fin (q : Qc)
| PInf
| NInf
| NaN.

Definition of_int (z : Z) : float64 := Fin (Qc_of_Z z).

Definition isnan (x : float64) : bool :=
  match x with NaN => true | _ => false end.

Definition isinf (x : float64) : bool :=
  match x with PInf | NInf => true | _ => false end.

Definition fneg (x : float64) : float64 :=
  match x with
  | Fin q => Fin (- q)%Qc
  | PInf => NInf
  | NInf => PInf
  | NaN => NaN
  end.

(** Addition.  Two numbers are added exactly, with no rounding and no
    overflow to an infinity; module [Ieee] below has the additions that
    round and overflow. *)
Definition fadd (x y : float64) : float64 :=
  match x, y with
  | NaN, _ | _, NaN => NaN
  | Fin a, Fin b => Fin (a + b)%Qc
  | PInf, NInf | NInf, PInf => NaN
  | PInf, _ | _, PInf => PInf
  | NInf, _ | _, NInf => NInf
  end.

Definition fsub (x y : float64) : float64 := fadd x (fneg y).

(** The sign of a finite value decides which infinity a product or a
    quotient with an infinity or a zero gives. *)
Definition signed_inf (q : Qc) : float64 :=
  if decide (0 < q)%Qc then PInf
  else if decide (q < 0)%Qc then NInf
  else NaN.

Definition fmul (x y : float64) : float64 :=
  match x, y with
  | NaN, _ | _, NaN => NaN
  | Fin a, Fin b => Fin (a * b)%Qc
  | Fin a, PInf | PInf, Fin a => signed_inf a
  | Fin a, NInf | NInf, Fin a => fneg (signed_inf a)
  | PInf, PInf | NInf, NInf => PInf
  | PInf, NInf | NInf, PInf => NInf
  end.

(** True division.  numpy does not raise on a zero divisor: it warns and
    returns [inf], [-inf] or [nan].  The zero divisors of this program
    are positive zeros (an empty sum, a count). *)
Definition fdiv (x y : float64) : float64 :=
  match x, y with
  | NaN, _ | _, NaN => NaN
  | Fin a, Fin b =>
      if decide (b = 0)%Qc then signed_inf a else Fin (a / b)%Qc
  | Fin _, (PInf | NInf) => Fin 0%Qc
  | PInf, Fin b => if decide (b < 0)%Qc then NInf else PInf
  | NInf, Fin b => if decide (b < 0)%Qc then PInf else NInf
  | (PInf | NInf), (PInf | NInf) => NaN
  end.

(** [x > y]; every comparison with [nan] is false. *)
Definition fgt (x y : float64) : bool :=
  match x, y with
  | NaN, _ | _, NaN => false
  | Fin a, Fin b => bool_decide (b < a)%Qc
  | PInf, (Fin _ | NInf) => true
  | Fin _, NInf => true
  | _, _ => false
  end.

End Np.

Export Np.

(** ** The three tables read from the CSV files *)

(** One row of [weapon_arrests_monthly.csv], with the columns the script
    reads.  [Year], [Month] and [Arrests] are integer columns; the two
    moving averages and [YoY_Change] are floating columns in which an empty
    CSV cell is [nan]. *)
Record MonthlyRow : Type := {
  Year : Z;
  Month : Z;
  Year_Month : string;
  Arrests : Z;
  _3_Month_Avg : float64;
  _12_Month_Avg : float64;
  YoY_Change : float64;
}.

Module Summary.
(** One row of [weapon_arrests_summary.csv]. *)
Record row : Type := {
  Year : Z;
  Total_Arrests : Z;
  Average_Monthly_Arrests : float64;
  Max_Monthly_Arrests : Z;
  Min_Monthly_Arrests : Z;
  Standard_Deviation : float64;
}.
End Summary.

Module Averages.
(** One row of [weapon_arrests_monthly_averages.csv]. *)
Record row : Type := {
  Month : Z;
  Average_Arrests : float64;
  Std_Dev : float64;
  Min_Arrests : Z;
  Max_Arrests : Z;
}.
End Averages.

(** ** pandas operations used by the script *)

Module Pd.

(** [Series.sum()] of an [int64] column. *)
Definition int_sum (xs : list Z) : Z := wrap64 (foldr Z.add 0 xs).

(** [Series.sum()] of a [float64] column ([skipna=True], [min_count=0]):
    [nan] cells count as zero, so a column of [nan] only sums to [0.0]. *)
Definition nan_to_zero (x : float64) : float64 :=
  if isnan x then Fin 0%Qc else x.

Definition float_sum (xs : list float64) : float64 :=
  foldl fadd (Fin 0%Qc) (nan_to_zero <$> xs).

(** The number of cells that are not [nan]. *)
Definition count (xs : list float64) : nat :=
  length (filter (λ x, isnan x = false) xs).

(** [Series.mean()] of a [float64] column ([nanops.nanmean]): the sum with
    [nan] cells as zero, over the count of the other cells; [nan] when
    that count is zero. *)
Definition float_mean (xs : list float64) : float64 :=
  if decide (count xs = 0%nat) then NaN
  else fdiv (float_sum xs) (of_int (Z.of_nat (count xs))).

(** [Series.mean()] of an [int64] column: [nanmean] sums in [float64]. *)
Definition int_mean (xs : list Z) : float64 :=
  float_mean (of_int <$> xs).

(** [Series.shift(n)] on an [int64] column: the values move [n] places
    down, the first [n] cells become [nan] (the column turns [float64])
    and the last [n] values fall off. *)
Definition shift (n : nat) (xs : list Z) : list float64 :=
  take (length xs) (replicate n NaN ++ (of_int <$> xs)).

(** [df[mask]]: the rows at which the boolean mask is [True], in order. *)
Definition getitem_mask {A} (rows : list A) (mask : list bool) : list A :=
  fst <$> filter (λ p, p.2 = true) (zip rows mask).

(** [Series.unique()] followed by [sorted], and the group keys of
    [groupby] (which sorts them): each key once, ascending. *)
Definition unique_sorted (ks : list Z) : list Z :=
  merge_sort Z.le (remove_dups ks).

(** [df.groupby(key)]: one group per key, keys ascending, each group
    holding its rows in the order of the frame. *)
Definition groupby {A} (key : A → Z) (rows : list A) : list (Z * list A) :=
  (λ k, (k, filter (λ r, key r = k) rows)) <$> unique_sorted (key <$> rows).

(** The result of [df.pivot(index, columns, values)]: the sorted index
    and column labels and, row by row, the cell of each pair of labels;
    a pair with no row in the frame has an empty cell. *)
Record Pivot (V : Type) : Type := {
  index : list Z;
  columns : list Z;
  cells : list (list (option V));
}.
Global Arguments index {V} _.
Global Arguments columns {V} _.
Global Arguments cells {V} _.

Definition pivot_cell {A V} (idx col : A → Z) (val : A → V)
    (rows : list A) (i c : Z) : option V :=
  val <$> head (filter (λ r, idx r = i ∧ col r = c) rows).

(** [pivot] refuses a frame in which two rows carry the same pair of
    labels: pandas raises [ValueError: Index contains duplicate entries,
    cannot reshape].  [None] stands for that exception. *)
Definition pivot {A V} (idx col : A → Z) (val : A → V)
    (rows : list A) : option (Pivot V) :=
  if decide (NoDup ((λ r, (idx r, col r)) <$> rows)) then
    let ix := unique_sorted (idx <$> rows) in
    let cs := unique_sorted (col <$> rows) in
    Some {| index := ix; columns := cs;
            cells := (λ i, (λ c, pivot_cell idx col val rows i c) <$> cs) <$> ix |}
  else None.

End Pd.

(** ** The values the script derives *)

(** Line 86: [monthly_data[(monthly_data['Year'] >= year_range[0]) &
    (monthly_data['Year'] <= year_range[1])]]. *)
Definition year_mask (monthly_data : list MonthlyRow) (year_range : Z * Z)
    : list bool :=
  zip_with andb
    ((λ r, bool_decide (year_range.1 ≤ Year r)) <$> monthly_data)
    ((λ r, bool_decide (Year r ≤ year_range.2)) <$> monthly_data).

Definition filtered_data (monthly_data : list MonthlyRow)
    (year_range : Z * Z) : list MonthlyRow :=
  Pd.getitem_mask monthly_data (year_mask monthly_data year_range).

(** Lines 96, 100, 104 and 108: the four metrics. *)
Definition total_arrests (filtered : list MonthlyRow) : Z :=
  Pd.int_sum (Arrests <$> filtered).

Definition avg_monthly (filtered : list MonthlyRow) : float64 :=
  Pd.int_mean (Arrests <$> filtered).

Definition yoy_change (filtered : list MonthlyRow) : float64 :=
  Pd.float_mean (YoY_Change <$> filtered).

(** The two symbols of the trend metric: U+1F4C8 (chart increasing) and
    U+1F4C9 (chart decreasing). *)
Inductive trend_symbol : Type := ChartIncreasing | ChartDecreasing.

Definition trend (filtered : list MonthlyRow) : trend_symbol :=
  if fgt (yoy_change filtered) (Fin 0%Qc) then ChartIncreasing
  else ChartDecreasing.

(** Lines 161 and 178: the two pivots. *)
Definition yearly_comparison (filtered : list MonthlyRow)
    : option (Pd.Pivot Z) :=
  Pd.pivot Month Year Arrests filtered.

Definition yoy_pivot (filtered : list MonthlyRow)
    : option (Pd.Pivot float64) :=
  Pd.pivot Year Month YoY_Change filtered.

(** Lines 253 to 256: the per-year table of the statistics tab. *)
Module Yearly.
Record row : Type := {
  Year : Z;
  Total_Arrests : Z;
  YoY_Change : float64;
}.
End Yearly.

(** The aggregation [lambda x: ((x.sum() / x.shift(12).sum()) - 1) * 100],
    applied to the [Arrests] of one group. *)
Definition yoy_lambda (x : list Z) : float64 :=
  fmul
    (fsub (fdiv (of_int (Pd.int_sum x)) (Pd.float_sum (Pd.shift 12 x)))
          (Fin 1%Qc))
    (of_int 100).

Definition yearly_changes (filtered : list MonthlyRow) : list Yearly.row :=
  (λ g, {| Yearly.Year := g.1;
           Yearly.Total_Arrests := Pd.int_sum (Arrests <$> g.2);
           Yearly.YoY_Change := yoy_lambda (Arrests <$> g.2) |})
    <$> Pd.groupby Year filtered.

(** ** Streamlit output, exceptions and the object store *)

(** Python exceptions the script can meet, with [str(e)]. *)
Inductive exn : Type :=
| FileNotFoundError (str : string)
| ValueError (str : string)
| Exception (str : string).

(** A DataFrame object.  The script's variables hold references to such
    objects; an operation of pandas that returns a new frame allocates. *)
Inductive frame : Type :=
| MonthlyFrame (rows : list MonthlyRow)
| SummaryFrame (rows : list Summary.row)
| AveragesFrame (rows : list Averages.row)
| ArrestsPivot (p : Pd.Pivot Z)
| YoYPivot (p : Pd.Pivot float64)
| YearlyFrame (rows : list Yearly.row).

(** The figures handed to [st.plotly_chart], with the data they draw. *)
Inductive figure : Type :=
| MonthlyTrends (x : list string) (arrests : list Z)
    (avg3 avg12 : list float64)
| YearComparison (p : Pd.Pivot Z)
| YoYHeatmap (p : Pd.Pivot float64)
| AverageBar (x : list Z) (y error_y : list float64)
| MonthlyBox (x y : list Z).

Module St.
(** What a run sends to the page, in order.  Number formats and layout
    containers ([st.columns], [with tab:]) are presentation and are left
    out; a metric carries the value it formats. *)
Inductive event : Type :=
| set_page_config
| markdown (body : string)
| title (body : string)
| error (body : string)
| metric_int (label : string) (value : Z)
| metric_float (label : string) (value : float64)
| metric_trend (label : string) (value : trend_symbol)
| tabs (labels : list string)
| subheader (body : string)
| plotly_chart (fig : figure)
| dataframe (data : frame)
| sidebar_write (label value : string)
| sidebar_write_list (label : string) (value : list string)
| sidebar_title (body : string)
| sidebar_markdown (body : string)
| sidebar_select_slider (label : string) (options : list Z)
    (value : Z * Z).
End St.

(** The state of a run: the store of frames, append-only in this model
    (a reference is a position in it), and the page so far. *)
Record state : Type := {
  heap : list frame;
  page : list St.event;
}.

(** How a run, or a part of it, ends: normally, by [st.stop()], or by an
    exception nobody caught. *)
Inductive result (A : Type) : Type :=
| Done (a : A)
| Stopped
| Raised (e : exn).
Global Arguments Done {A} _.
Global Arguments Stopped {A}.
Global Arguments Raised {A} _.

Definition M (A : Type) : Type := state → result A * state.

Global Instance M_ret : MRet M := λ A a σ, (Done a, σ).
Global Instance M_bind : MBind M := λ A B f m σ,
  match m σ with
  | (Done a, σ') => f a σ'
  | (Stopped, σ') => (Stopped, σ')
  | (Raised e, σ') => (Raised e, σ')
  end.

Definition emit (e : St.event) : M () :=
  λ σ, (Done (), {| heap := heap σ; page := page σ ++ [e] |}).

Definition stop {A} : M A := λ σ, (Stopped, σ).

Definition raise {A} (e : exn) : M A := λ σ, (Raised e, σ).

(** A new object: it gets the next free reference; no object is touched. *)
Definition alloc (f : frame) : M nat :=
  λ σ, (Done (length (heap σ)),
        {| heap := heap σ ++ [f]; page := page σ |}).

(** Reading the rows behind a monthly frame.  The variables of the script
    always hold frames of the right kind; the other branch is there to
    make the function total. *)
Definition monthly_rows (r : nat) : M (list MonthlyRow) :=
  λ σ, match heap σ !! r with
       | Some (MonthlyFrame rows) => (Done rows, σ)
       | _ => (Raised (Exception "not a monthly frame"), σ)
       end.

Definition read_frame (r : nat) : M frame :=
  λ σ, match heap σ !! r with
       | Some f => (Done f, σ)
       | None => (Raised (Exception "no such object"), σ)
       end.

(** [try: body except FileNotFoundError as e: h1 except Exception as e: h2].
    [st.stop()] is not an [Exception] and passes through. *)
Definition try_except {A} (body : M A) (on_missing on_other : string → M A)
    : M A :=
  λ σ, match body σ with
       | (Raised (FileNotFoundError s), σ') => on_missing s σ'
       | (Raised (ValueError s), σ') => on_other s σ'
       | (Raised (Exception s), σ') => on_other s σ'
       | r => r
       end.

(** ** The world around a run *)

(** What [pd.read_csv] finds at a path. *)
Inductive csv_file (A : Type) : Type :=
| Missing
| Unparsable (str : string)
| Table (rows : list A).
Global Arguments Missing {A}.
Global Arguments Unparsable {A} _.
Global Arguments Table {A} _.

Record Env : Type := {
  (** [os.path.dirname(os.path.abspath(__file__))] *)
  file_dir : string;
  (** the files, read with the columns of each of the three tables *)
  read_monthly : string → csv_file MonthlyRow;
  read_summary : string → csv_file Summary.row;
  read_averages : string → csv_file Averages.row;
  (** the year-range slider: from its options and initial value to the
      range the user has selected *)
  select_slider : list Z → Z * Z → Z * Z;
  (** [pd.Timestamp.now().strftime("%Y-%m-%d")] *)
  today : string;
  (** [os.getcwd()] and [os.listdir()] *)
  getcwd : string;
  listdir : list string;
}.

Fixpoint ends_with_slash (s : string) : bool :=
  match s with
  | EmptyString => false
  | String c EmptyString => bool_decide (c = "/"%char)
  | String _ s' => ends_with_slash s'
  end.

(** [os.path.join(a, b)] for a relative [b]. *)
Definition path_join (a b : string) : string :=
  if decide (a = "") then b
  else if ends_with_slash a then a +:+ b
  else a +:+ "/" +:+ b.

(** Python's [min] and [max] of a list; [None] for the [ValueError] on an
    empty one. *)
Definition py_min (l : list Z) : option Z :=
  match l with [] => None | x :: l' => Some (foldl Z.min x l') end.

Definition py_max (l : list Z) : option Z :=
  match l with [] => None | x :: l' => Some (foldl Z.max x l') end.

(** ** The texts of the page *)

Definition style_block : string := "
    <style>
    .main {
        padding: 2rem;
    }
    .stMetric {
        background-color: #f8f9fa;
        padding: 1rem;
        border-radius: 0.5rem;
    }
    </style>
    ".

Definition page_title : string :=
  "🚔 New Mexico Weapon-Related Arrests Analysis".

Definition introduction : string := "
This dashboard analyzes weapon-related arrests in New Mexico from 2018 to 2023. 
Use the controls in the sidebar to explore different aspects of the data.
".

Definition monthly_csv : string := "weapon_arrests_monthly.csv".
Definition summary_csv : string := "weapon_arrests_summary.csv".
Definition averages_csv : string := "weapon_arrests_monthly_averages.csv".

(** The f-string of the [FileNotFoundError] handler (lines 49 to 58). *)
Definition missing_files_message (script_dir e : string) : string :=
  "
        Error: Could not find one or more data files.
        
        Please ensure the following files are in the directory "
  +:+ script_dir +:+ ":
        - " +:+ monthly_csv +:+ "
        - " +:+ summary_csv +:+ "
        - " +:+ averages_csv +:+ "
        
        Error details: " +:+ e +:+ "
        ".

Definition unexpected_error_message (e : string) : string :=
  "An unexpected error occurred: " +:+ e.

Definition footer (date : string) : string := "
    📊 Data source: NIBRS (National Incident-Based Reporting System)  
    📅 Last updated: " +:+ date +:+ "
".

(** The variables the script has bound when it reaches its end. *)
Module Globals.
Record t : Type := {
  monthly_data : nat;
  summary_data : nat;
  monthly_averages : nat;
  year_range : Z * Z;
  filtered_data : nat;
  yearly_comparison : nat;
  yoy_pivot : nat;
  yearly_changes : nat;
}.
End Globals.

(** ** The script *)

Section Script.

Variable env : Env.

(** [pd.read_csv(path)]: a new frame, or the exception. *)
Definition read_csv {A} (files : string → csv_file A)
    (wrap : list A → frame) (path : string) : M nat :=
  match files path with
  | Missing =>
      raise (FileNotFoundError
               ("[Errno 2] No such file or directory: '" +:+ path +:+ "'"))
  | Unparsable s => raise (Exception s)
  | Table rows => alloc (wrap rows)
  end.

(** Lines 34 to 36. *)
Definition script_dir : string :=
  if decide (file_dir env = "") then "." else file_dir env.

(** Lines 30 to 62. *)
Definition load_data : M (nat * nat * nat) :=
  try_except
    (emit (St.sidebar_write "Looking for data files in:" script_dir);;
     monthly_data ←
       read_csv (read_monthly env) MonthlyFrame
         (path_join script_dir monthly_csv);
     summary_data ←
       read_csv (read_summary env) SummaryFrame
         (path_join script_dir summary_csv);
     monthly_averages ←
       read_csv (read_averages env) AveragesFrame
         (path_join script_dir averages_csv);
     mret (monthly_data, summary_data, monthly_averages))
    (λ e, emit (St.error (missing_files_message script_dir e));; stop)
    (λ e, emit (St.error (unexpected_error_message e));; stop).

(** Lines 78 to 89: the slider and the filter.  The filter builds a new
    frame from the rows of [monthly_data]. *)
Definition select_year_range (monthly_data : nat) : M (Z * Z) :=
  rows ← monthly_rows monthly_data;
  let years := Pd.unique_sorted (Year <$> rows) in
  match py_min years, py_max years with
  | Some lo, Some hi =>
      emit (St.sidebar_select_slider "Select Year Range" years (lo, hi));;
      mret (select_slider env years (lo, hi))
  | _, _ => raise (ValueError "min() arg is an empty sequence")
  end.

Definition filter_years (monthly_data : nat) (year_range : Z * Z) : M nat :=
  rows ← monthly_rows monthly_data;
  alloc (MonthlyFrame (filtered_data rows year_range)).

(** Lines 92 to 109. *)
Definition key_metrics (filtered : nat) : M () :=
  emit (St.markdown "### Key Metrics");;
  rows ← monthly_rows filtered;
  emit (St.metric_int "Total Arrests" (total_arrests rows));;
  emit (St.metric_float "Average Monthly Arrests" (avg_monthly rows));;
  emit (St.metric_float "Average YoY Change" (yoy_change rows));;
  emit (St.metric_trend "Overall Trend" (trend rows)).

(** Lines 120 to 155. *)
Definition monthly_trends (filtered : nat) : M () :=
  emit (St.markdown "### Monthly Arrest Trends");;
  rows ← monthly_rows filtered;
  emit (St.plotly_chart
          (MonthlyTrends (Year_Month <$> rows) (Arrests <$> rows)
             (_3_Month_Avg <$> rows) (_12_Month_Avg <$> rows))).

Definition duplicate_entries : exn :=
  ValueError "Index contains duplicate entries, cannot reshape".

(** Lines 158 to 192. *)
Definition year_comparison (filtered : nat) : M (nat * nat) :=
  emit (St.markdown "### Year-over-Year Comparison");;
  rows ← monthly_rows filtered;
  match yearly_comparison rows with
  | None => raise duplicate_entries
  | Some p =>
      yearly_comparison ← alloc (ArrestsPivot p);
      emit (St.plotly_chart (YearComparison p));;
      match yoy_pivot rows with
      | None => raise duplicate_entries
      | Some q =>
          yoy_pivot ← alloc (YoYPivot q);
          emit (St.plotly_chart (YoYHeatmap q));;
          mret (yearly_comparison, yoy_pivot)
      end
  end.

Definition averages_rows (r : nat) : M (list Averages.row) :=
  f ← read_frame r;
  match f with
  | AveragesFrame rows => mret rows
  | _ => raise (Exception "not a monthly-averages frame")
  end.

(** Lines 195 to 219. *)
Definition seasonal_analysis (monthly_averages filtered : nat) : M () :=
  emit (St.markdown "### Seasonal Patterns");;
  avgs ← averages_rows monthly_averages;
  emit (St.plotly_chart
          (AverageBar (Averages.Month <$> avgs)
             (Averages.Average_Arrests <$> avgs)
             (Averages.Std_Dev <$> avgs)));;
  rows ← monthly_rows filtered;
  emit (St.plotly_chart (MonthlyBox (Month <$> rows) (Arrests <$> rows))).

(** Lines 222 to 263.  [groupby(...).agg(...)] builds a frame indexed by
    year and [reset_index()] a second one with the year as a column. *)
Definition statistics (summary_data monthly_averages filtered : nat)
    : M nat :=
  emit (St.markdown "### Detailed Statistics");;
  emit (St.subheader "Yearly Summary");;
  summary ← read_frame summary_data;
  emit (St.dataframe summary);;
  emit (St.subheader "Monthly Statistics");;
  averages ← read_frame monthly_averages;
  emit (St.dataframe averages);;
  emit (St.subheader "Year-over-Year Changes");;
  rows ← monthly_rows filtered;
  aggregated ← alloc (YearlyFrame (yearly_changes rows));
  by_year ← read_frame aggregated;
  yearly_changes ← alloc by_year;
  table ← read_frame yearly_changes;
  emit (St.dataframe table);;
  mret yearly_changes.

(** Lines 266 to 276. *)
Definition closing : M () :=
  emit (St.markdown "---");;
  emit (St.markdown (footer (today env)));;
  emit (St.sidebar_markdown "---");;
  emit (St.sidebar_markdown "### Debug Information");;
  emit (St.sidebar_write "Current working directory:" (getcwd env));;
  emit (St.sidebar_write_list "Files in directory:" (listdir env)).

(** Lines 9 to 69: what is on the page before the data is loaded. *)
Definition header : M () :=
  emit St.set_page_config;;
  emit (St.markdown style_block);;
  emit (St.title page_title);;
  emit (St.markdown introduction).

(** Lines 74 to 276: the dashboard over the three loaded frames. *)
Definition dashboard (loaded : nat * nat * nat) : M Globals.t :=
  let '(monthly_data, summary_data, monthly_averages) := loaded in
  emit (St.sidebar_title "Dashboard Controls");;
  year_range ← select_year_range monthly_data;
  filtered ← filter_years monthly_data year_range;
  key_metrics filtered;;
  emit (St.tabs ["Monthly Trends"; "Year Comparison";
                 "Seasonal Analysis"; "Statistics"]);;
  monthly_trends filtered;;
  '(yearly_comparison, yoy_pivot) ← year_comparison filtered;
  seasonal_analysis monthly_averages filtered;;
  yearly_changes ← statistics summary_data monthly_averages filtered;
  closing;;
  mret {| Globals.monthly_data := monthly_data;
          Globals.summary_data := summary_data;
          Globals.monthly_averages := monthly_averages;
          Globals.year_range := year_range;
          Globals.filtered_data := filtered;
          Globals.yearly_comparison := yearly_comparison;
          Globals.yoy_pivot := yoy_pivot;
          Globals.yearly_changes := yearly_changes |}.

(** The whole script, top to bottom. *)
Definition main : M Globals.t :=
  header;;
  loaded ← load_data;
  dashboard loaded.

End Script.

(** A run starts with no objects and an empty page. *)
Definition initial : state := {| heap := []; page := [] |}.

Definition run (env : Env) : result Globals.t * state := main env initial.

(** The pure computations stay folded while the script is stepped through. *)
Global Arguments filtered_data : simpl never.
Global Arguments total_arrests : simpl never.
Global Arguments avg_monthly : simpl never.
Global Arguments yoy_change : simpl never.
Global Arguments trend : simpl never.
Global Arguments yearly_comparison : simpl never.
Global Arguments yoy_pivot : simpl never.
Global Arguments yearly_changes : simpl never.
Global Arguments Pd.unique_sorted : simpl never.
Global Arguments path_join : simpl never.
Global Arguments missing_files_message : simpl never.
Global Arguments unexpected_error_message : simpl never.
Global Arguments footer : simpl never.
Global Arguments script_dir : simpl never.

(** The three files are there and parse. *)
Definition loads (env : Env) (m : list MonthlyRow) (s : list Summary.row)
    (a : list Averages.row) : Prop :=
  read_monthly env (path_join (script_dir env) monthly_csv) = Table m ∧
  read_summary env (path_join (script_dir env) summary_csv) = Table s ∧
  read_averages env (path_join (script_dir env) averages_csv) = Table a.

(** The cells of a floating column that are not [nan], and the exact
    arithmetic mean of finite values. *)
Definition present (xs : list float64) : list float64 :=
  filter (λ x, isnan x = false) xs.

Definition Qc_sum (qs : list Qc) : Qc := foldr Qcplus 0%Qc qs.

Definition Qc_mean (qs : list Qc) : Qc :=
  (Qc_sum qs / Qc_of_Z (Z.of_nat (length qs)))%Qc.

(** ** The aggregator behind the monthly table *)

Module Aggregator.

(** Modelled from the spec: the aggregator that writes
    [weapon_arrests_monthly.csv] is not among the sources, which only
    read its columns.  This is its input, one observation per period
    (section 3 of the specification). *)
Record Observation : Type := {
  Year : Z;
  Month : Z;
  Arrests : Z;
}.

Definition period_le (a b : Observation) : Prop :=
  Year a < Year b ∨ (Year a = Year b ∧ Month a ≤ Month b).

Global Instance period_le_dec : RelDecision period_le.
Proof. intros a b. unfold period_le. apply _. Defined.

(** Modelled from the spec: step 1 of the aggregator (section 4.1), which
    is not among the sources: the observations sorted ascending by
    (Year, Month). *)
Definition sorted_series (input : list Observation) : list Observation :=
  merge_sort period_le input.

(** The mean of a window of counts. *)
Definition mean (window : list Z) : Qc :=
  (Qc_of_Z (foldr Z.add 0%Z window)
   / Qc_of_Z (Z.of_nat (length window)))%Qc.

(** The last [k] elements of a list. *)
Definition last_n {A} (k : nat) (l : list A) : list A :=
  drop (length l - k) l.

(** Modelled from the spec: the value of a trailing average (section 4.1,
    step 2, of the aggregator that is not among the sources): absent while
    fewer than the window size of periods exist, the mean of the window
    otherwise. *)
Definition window_value (k : nat) (window : list Z) : option Qc :=
  if decide (length window < k)%nat then None else Some (mean window).

(** Modelled from the spec: step 2 of the aggregator, which is not among
    the sources: one pass over the sorted counts that carries the window
    of the last [k] periods; a period is part of its own window. *)
Fixpoint trailing (k : nat) (window : list Z) (counts : list Z)
    : list (option Qc) :=
  match counts with
  | [] => []
  | x :: rest =>
      let window' := last_n k (window ++ [x]) in
      window_value k window' :: trailing k window' rest
  end.

Definition rolling_mean (k : nat) (counts : list Z) : list (option Qc) :=
  trailing k [] counts.

(** Modelled from the spec: the columns [3_Month_Avg] and [12_Month_Avg]
    of the monthly table, computed by the aggregator that is not among
    the sources, with windows of 3 and 12 periods. *)
Definition _3_Month_Avg (input : list Observation) : list (option Qc) :=
  rolling_mean 3 (Arrests <$> sorted_series input).

Definition _12_Month_Avg (input : list Observation) : list (option Qc) :=
  rolling_mean 12 (Arrests <$> sorted_series input).

End Aggregator.

(** ** Reading a page *)

(** The events that show data: the metrics, the charts and the tables. *)
Definition shows_data (e : St.event) : bool :=
  match e with
  | St.metric_int _ _ | St.metric_float _ _ | St.metric_trend _ _
  | St.plotly_chart _ | St.dataframe _ => true
  | _ => false
  end.

Definition is_error (e : St.event) : bool :=
  match e with St.error _ => true | _ => false end.

(** What a run reports of its inputs: the data it shows and its errors. *)
Definition reports (e : St.event) : bool := shows_data e || is_error e.

(** A text mentions a file name. *)
Definition names (file text : string) : Prop :=
  ∃ before after : string, text = before +:+ file +:+ after.

(** The load meets a missing file before any other failure: [read_csv]
    raises [FileNotFoundError]. *)
Definition first_failure_is_missing (env : Env) : Prop :=
  let dir := script_dir env in
  read_monthly env (path_join dir monthly_csv) = Missing
  ∨ (∃ m, read_monthly env (path_join dir monthly_csv) = Table m
          ∧ read_summary env (path_join dir summary_csv) = Missing)
  ∨ (∃ m s, read_monthly env (path_join dir monthly_csv) = Table m
            ∧ read_summary env (path_join dir summary_csv) = Table s
            ∧ read_averages env (path_join dir averages_csv) = Missing).

(** The range the slider returns for a monthly table that has rows. *)
Definition selected_range (env : Env) (m : list MonthlyRow) : Z * Z :=
  let years := Pd.unique_sorted (Year <$> m) in
  select_slider env years
    (default 0 (py_min years), default 0 (py_max years)).

(** The periods of a table, one per row. *)
Definition periods (rows : list MonthlyRow) : list (Z * Z) :=
  (λ r, (Year r, Month r)) <$> rows.

(** Two runs get the same files and the same selection on the slider;
    the clock, the working directory and its listing may differ. *)
Definition same_inputs (env1 env2 : Env) : Prop :=
  file_dir env1 = file_dir env2
  ∧ read_monthly env1 = read_monthly env2
  ∧ read_summary env1 = read_summary env2
  ∧ read_averages env1 = read_averages env2
  ∧ select_slider env1 = select_slider env2.

(** An operation leaves every object of the store as it was: the store
    it returns extends the store it was given. *)
Definition preserves {A} (m : M A) : Prop :=
  ∀ σ, heap σ `prefix_of` heap (m σ).2.

(** ** Sample tables *)

(** A monthly row with the given period, count and year-over-year cell. *)
Definition observation (y m a : Z) (yoy : float64) : MonthlyRow :=
  {| Year := y; Month := m; Year_Month := ""; Arrests := a;
     _3_Month_Avg := NaN; _12_Month_Avg := NaN; YoY_Change := yoy |}.

(** Twelve months of one year, with the same count every month. *)
Definition full_year (y a : Z) : list MonthlyRow :=
  (λ m, observation y m a NaN) <$> seqZ 1 12.

(** Two complete years: ten arrests a month in 2018, fifteen in 2019. *)
Definition two_years : list MonthlyRow :=
  full_year 2018 10 ++ full_year 2019 15.

(** A year-over-year column holding both infinities. *)
Definition both_infinities : list MonthlyRow :=
  [observation 2019 1 5 PInf; observation 2019 2 0 NInf].

(** A column with two finite cells and an empty one. *)
Definition one_cell_empty : list MonthlyRow :=
  [observation 2019 1 15 (of_int 50); observation 2019 2 7 NaN;
   observation 2019 3 11 (of_int 10)].

(** A column with empty cells only: the first year of a series. *)
Definition all_cells_empty : list MonthlyRow :=
  [observation 2018 1 10 NaN; observation 2018 2 20 NaN].

(** A monthly table with the period (2018, 1) twice and one row of 2019. *)
Definition duplicated_2018 : list MonthlyRow :=
  [observation 2018 1 10 NaN; observation 2018 1 12 NaN;
   observation 2019 1 15 NaN].

(** A monthly table of a single row. *)
Definition january_2019 : list MonthlyRow := [observation 2019 1 15 NaN].

(** The scenario of the specification, out of order. *)
Definition scenario : list Aggregator.Observation :=
  [ {| Aggregator.Year := 2019; Aggregator.Month := 1;
       Aggregator.Arrests := 15 |};
    {| Aggregator.Year := 2018; Aggregator.Month := 3;
       Aggregator.Arrests := 30 |};
    {| Aggregator.Year := 2018; Aggregator.Month := 1;
       Aggregator.Arrests := 10 |};
    {| Aggregator.Year := 2018; Aggregator.Month := 2;
       Aggregator.Arrests := 20 |} ].

(** ** Sample environments *)

(** The script lives in [/app]; the three files are there with the given
    monthly table and empty summary tables; [choose] is the slider. *)
Definition app_env (monthly : list MonthlyRow)
    (choose : list Z → Z * Z → Z * Z) (date : string) : Env :=
  {| file_dir := "/app";
     read_monthly := λ path,
       if decide (path = "/app/weapon_arrests_monthly.csv")
       then Table monthly else Missing;
     read_summary := λ path,
       if decide (path = "/app/weapon_arrests_summary.csv")
       then Table [] else Missing;
     read_averages := λ path,
       if decide (path = "/app/weapon_arrests_monthly_averages.csv")
       then Table [] else Missing;
     select_slider := choose;
     today := date;
     getcwd := "/app";
     listdir := [] |}.

(** The slider left at its initial value, and the slider moved to 2019. *)
Definition untouched (options : list Z) (value : Z * Z) : Z * Z := value.
Definition only_2019 (options : list Z) (value : Z * Z) : Z * Z :=
  (2019, 2019).

(** A directory in which the summary file is missing. *)
Definition env_without_summary : Env :=
  {| file_dir := "/app";
     read_monthly := λ _, Table two_years;
     read_summary := λ _, Missing;
     read_averages := λ _, Table [];
     select_slider := untouched;
     today := "2024-05-01";
     getcwd := "/app";
     listdir := ["fianl_data.py"; "weapon_arrests_monthly.csv"] |}.

(** A directory in which the monthly file does not parse. *)
Definition env_unparsable_monthly : Env :=
  {| file_dir := "";
     read_monthly := λ _, Unparsable "No columns to parse from file";
     read_summary := λ _, Missing;
     read_averages := λ _, Table [];
     select_slider := untouched;
     today := "2024-05-01";
     getcwd := "/srv";
     listdir := [] |}.

(** The year-comparison pivot of [one_cell_empty]: three months of 2019. *)
Definition one_cell_empty_pivot : Pd.Pivot Z :=
  {| Pd.index := [1; 2; 3]; Pd.columns := [2019];
     Pd.cells := [[Some 15]; [Some 7]; [Some 11]] |}.

(** ** Further readings of a run *)

(** The load meets a file that does not parse before any other failure:
    [read_csv] raises an exception with text [e] that is not a
    [FileNotFoundError]. *)
Definition first_failure_is_unparsable (env : Env) (e : string) : Prop :=
  let dir := script_dir env in
  read_monthly env (path_join dir monthly_csv) = Unparsable e
  ∨ (∃ m, read_monthly env (path_join dir monthly_csv) = Table m
          ∧ read_summary env (path_join dir summary_csv) = Unparsable e)
  ∨ (∃ m s, read_monthly env (path_join dir monthly_csv) = Table m
            ∧ read_summary env (path_join dir summary_csv) = Table s
            ∧ read_averages env (path_join dir averages_csv) = Unparsable e).


(** What is on the page before the first file is read. *)
Definition page_before_loading (env : Env) : list St.event :=
  [St.set_page_config; St.markdown style_block; St.title page_title;
   St.markdown introduction;
   St.sidebar_write "Looking for data files in:" (script_dir env)].

(** The four metrics and the first chart, as events. *)
Definition metrics_and_trends (f : list MonthlyRow) : list St.event :=
  [St.metric_int "Total Arrests" (total_arrests f);
   St.metric_float "Average Monthly Arrests" (avg_monthly f);
   St.metric_float "Average YoY Change" (yoy_change f);
   St.metric_trend "Overall Trend" (trend f);
   St.plotly_chart
     (MonthlyTrends (Year_Month <$> f) (Arrests <$> f)
        (_3_Month_Avg <$> f) (_12_Month_Avg <$> f))].

(** A floating value that is a number. *)
Definition isfinite (x : float64) : bool :=
  match x with Fin _ => true | _ => false end.

(** ** float64 with its rounding left open *)

Global Instance float64_eq_dec : EqDecision float64.
Proof. solve_decision. Defined.

Module Ieee.

(** What float64 addition obeys whatever it rounds to: the rules of the
    special values; two numbers add to a number or, on overflow, to an
    infinity, never to [nan]; adding zero changes nothing.  [fadd], which
    adds exactly and never overflows, is one addition of this kind; the
    addition of the machine is another. *)
Record add_rules (add : float64 → float64 → float64) : Prop := {
  add_nan_l : ∀ x, add NaN x = NaN;
  add_nan_r : ∀ x, add x NaN = NaN;
  add_pinf_ninf : add PInf NInf = NaN;
  add_ninf_pinf : add NInf PInf = NaN;
  add_pinf_l : ∀ x, x ≠ NaN → x ≠ NInf → add PInf x = PInf;
  add_pinf_r : ∀ x, x ≠ NaN → x ≠ NInf → add x PInf = PInf;
  add_ninf_l : ∀ x, x ≠ NaN → x ≠ PInf → add NInf x = NInf;
  add_ninf_r : ∀ x, x ≠ NaN → x ≠ PInf → add x NInf = NInf;
  add_numbers : ∀ a b, add (Fin a) (Fin b) ≠ NaN;
  add_zero_l : ∀ x, add (Fin 0%Qc) x = x;
  add_zero_r : ∀ x, add x (Fin 0%Qc) = x;
}.

(** What float64 division by a count obeys whatever it rounds to: [nan]
    and the infinities are kept, and a number divided by one or more
    stays a number (it cannot overflow). *)
Record div_rules (div : float64 → float64 → float64) : Prop := {
  div_nan : ∀ n, div NaN (Fin n) = NaN;
  div_pinf : ∀ n, (1 <= n)%Qc → div PInf (Fin n) = PInf;
  div_ninf : ∀ n, (1 <= n)%Qc → div NInf (Fin n) = NInf;
  div_number : ∀ a n, (1 <= n)%Qc → isfinite (div (Fin a) (Fin n)) = true;
}.

(** An order of summation: which cells are added to which.  numpy adds
    the cells of an array pairwise, in blocks; other routines add them
    from left to right. *)
Inductive order : Type :=
| Cell (x : float64)
| Plus (l r : order).

Fixpoint cells (t : order) : list float64 :=
  match t with
  | Cell x => [x]
  | Plus l r => cells l ++ cells r
  end.

Fixpoint eval (add : float64 → float64 → float64) (t : order) : float64 :=
  match t with
  | Cell x => x
  | Plus l r => add (eval add l) (eval add r)
  end.

(** No addition of two numbers in the summation overflows. *)
Fixpoint no_overflow (add : float64 → float64 → float64) (t : order)
    : bool :=
  match t with
  | Cell _ => true
  | Plus l r =>
      no_overflow add l && no_overflow add r
      && implb (isfinite (eval add l) && isfinite (eval add r))
               (isfinite (add (eval add l) (eval add r)))
  end.

(** No addition of two numbers in the summation rounds: each gives the
    exact sum. *)
Fixpoint no_rounding (add : float64 → float64 → float64) (t : order)
    : bool :=
  match t with
  | Cell _ => true
  | Plus l r =>
      no_rounding add l && no_rounding add r
      && match eval add l, eval add r with
         | Fin a, Fin b => bool_decide (add (Fin a) (Fin b) = Fin (a + b)%Qc)
         | _, _ => true
         end
  end.

(** The summation adds the cells of a column that are present, each
    once, and besides them zeros only: the zeros that stand for the empty
    cells, or the zero a running sum starts from. *)
Definition sums (t : order) (xs : list float64) : Prop :=
  ∃ k : nat, cells t ≡ₚ replicate k (Fin 0%Qc) ++ present xs.

(** [Series.mean()] ([nanops.nanmean]) with the arithmetic and the order
    of summation as parameters: [nan] when no cell is present, the sum
    over the number of present cells otherwise. *)
Definition nanmean (add div : float64 → float64 → float64)
    (xs : list float64) (t : order) : float64 :=
  if decide (Pd.count xs = 0%nat) then NaN
  else div (eval add t) (of_int (Z.of_nat (Pd.count xs))).

(** The summation of [Pd.float_sum]: from zero, cell after cell, empty
    cells as zero. *)
Definition left_to_right (xs : list float64) : order :=
  foldl (λ t y, Plus t (Cell y)) (Cell (Fin 0%Qc)) (Pd.nan_to_zero <$> xs).

(** An addition that overflows, and obeys the rules: adding zero changes
    nothing, another sum is exact below [2^1024] and an infinity from
    there on, as float64 gives for [2^1023 + 2^1023]. *)
Definition overflow (q : Qc) : float64 :=
  if decide (Qc_of_Z (2 ^ 1024) <= q)%Qc then PInf
  else if decide (q <= - Qc_of_Z (2 ^ 1024))%Qc then NInf
  else Fin q.

Definition fadd_overflowing (x y : float64) : float64 :=
  match x, y with
  | Fin a, Fin b =>
      if decide (a = 0%Qc) then y
      else if decide (b = 0%Qc) then x
      else overflow (a + b)%Qc
  | _, _ => fadd x y
  end.

End Ieee.

(** * Properties *)

#[local] Set Warnings "-clear-no-such-hyp".

(** Stepping through the script: the script and the monad are unfolded
    and the store and the page computed; the values derived from the
    tables stay folded. *)
Ltac script_step :=
  cbv beta iota zeta delta
      [run main header load_data dashboard select_year_range filter_years
       key_metrics monthly_trends year_comparison seasonal_analysis
       statistics closing averages_rows read_csv try_except
       mbind M_bind mret M_ret emit alloc stop raise monthly_rows read_frame
       initial heap page app length lookup list_lookup fst snd].

(** ** Floating-point sums and means *)

Section FloatSums.

Local Open Scope Qc_scope.

Lemma Qc_of_nat_ne_0 (n : nat) : n ≠ 0%nat → Qc_of_Z (Z.of_nat n) ≠ 0.
Proof.
  intros Hn H0. rewrite <- Z2Qc_inj_0 in H0. apply Z2Qc_inj in H0. lia.
Qed.

Lemma Qc_of_nat_pos (n : nat) : n ≠ 0%nat → 0 < Qc_of_Z (Z.of_nat n).
Proof.
  intros Hn. rewrite <- Z2Qc_inj_0. apply (proj1 (Z2Qc_inj_lt _ _)). lia.
Qed.

(** Dividing by a positive count keeps the kind of the sum. *)
Lemma fdiv_count (s : float64) (n : nat) :
  n ≠ 0%nat →
  fdiv s (of_int (Z.of_nat n)) =
    match s with
    | Fin a => Fin (a / Qc_of_Z (Z.of_nat n))
    | other => other
    end.
Proof.
  intros Hn. pose proof (Qc_of_nat_ne_0 n Hn) as Hne.
  pose proof (Qc_of_nat_pos n Hn) as Hpos.
  destruct s; simpl; try done.
  - destruct (decide _); [done | done].
  - destruct (decide _) as [Hlt | _]; [| done].
    exfalso. eapply Qclt_not_le; [exact Hlt |]. by apply Qclt_le_weak.
  - destruct (decide _) as [Hlt | _]; [| done].
    exfalso. eapply Qclt_not_le; [exact Hlt |]. by apply Qclt_le_weak.
Qed.

Lemma nan_to_zero_not_nan (x : float64) : Pd.nan_to_zero x ≠ NaN.
Proof. by destruct x. Qed.

Lemma nan_to_zero_inf (x y : float64) :
  isinf y = true → Pd.nan_to_zero x = y ↔ x = y.
Proof. destruct x, y; simpl; naive_solver. Qed.

(** A running sum is [nan] exactly when a [nan] went in or infinities of
    both signs did. *)
Lemma foldl_fadd_nan (xs : list float64) (acc : float64) :
  foldl fadd acc xs = NaN ↔
    (NaN ∈ acc :: xs ∨ (PInf ∈ acc :: xs ∧ NInf ∈ acc :: xs)).
Proof.
  revert acc. induction xs as [| x xs IH]; intros acc.
  - simpl. rewrite !list_elem_of_singleton. destruct acc; naive_solver.
  - simpl. rewrite IH. rewrite !(elem_of_cons (_ :: _)), !elem_of_cons.
    destruct acc, x; simpl; naive_solver.
Qed.

Lemma foldl_fadd_pinf (xs : list float64) (acc : float64) :
  foldl fadd acc xs = PInf ↔
    (PInf ∈ acc :: xs ∧ (NaN ∉ acc :: xs) ∧ (NInf ∉ acc :: xs)).
Proof.
  revert acc. induction xs as [| x xs IH]; intros acc.
  - simpl. rewrite !list_elem_of_singleton. destruct acc; naive_solver.
  - simpl. rewrite IH. rewrite !(elem_of_cons (_ :: _)), !elem_of_cons.
    destruct acc, x; simpl; naive_solver.
Qed.

Lemma foldl_fadd_ninf (xs : list float64) (acc : float64) :
  foldl fadd acc xs = NInf ↔
    (NInf ∈ acc :: xs ∧ (NaN ∉ acc :: xs) ∧ (PInf ∉ acc :: xs)).
Proof.
  revert acc. induction xs as [| x xs IH]; intros acc.
  - simpl. rewrite !list_elem_of_singleton. destruct acc; naive_solver.
  - simpl. rewrite IH. rewrite !(elem_of_cons (_ :: _)), !elem_of_cons.
    destruct acc, x; simpl; naive_solver.
Qed.

(** When every cell that is not [nan] is finite, the running sum is the
    exact sum of those cells. *)
Lemma foldl_fadd_finite (xs : list float64) (qs : list Qc) (a : Qc) :
  present xs = Fin <$> qs →
  foldl fadd (Fin a) (Pd.nan_to_zero <$> xs) = Fin (a + Qc_sum qs).
Proof.
  revert qs a. induction xs as [| x xs IH]; intros qs a Hp.
  - destruct qs; [| done]. simpl. f_equal. ring.
  - unfold present in Hp. rewrite filter_cons in Hp.
    destruct x as [q | | |]; simpl in Hp.
    + destruct qs as [| q' qs]; [done |]. simplify_eq/=.
      rewrite (IH qs); [| done]. f_equal. ring.
    + by destruct qs.
    + by destruct qs.
    + simpl. rewrite (IH qs); [| done]. f_equal. ring.
Qed.

Lemma elem_of_nan_to_zero_inf (xs : list float64) (y : float64) :
  isinf y = true → y ∈ Pd.nan_to_zero <$> xs ↔ y ∈ xs.
Proof.
  intros Hy. rewrite list_elem_of_fmap. split.
  - intros (x & Hx & Hin). symmetry in Hx.
    apply (proj1 (nan_to_zero_inf x y Hy)) in Hx. by subst.
  - intros Hin. exists y. split; [| done]. by destruct y.
Qed.

Lemma nan_not_in_nan_to_zero (xs : list float64) :
  NaN ∉ Pd.nan_to_zero <$> xs.
Proof.
  rewrite list_elem_of_fmap. intros (x & Hx & _).
  by apply (nan_to_zero_not_nan x).
Qed.

Lemma count_zero_iff (xs : list float64) :
  Pd.count xs = 0%nat ↔ Forall (λ x, x = NaN) xs.
Proof.
  unfold Pd.count. induction xs as [| x xs IH]; [by split |].
  rewrite filter_cons, Forall_cons. destruct x; simpl; naive_solver.
Qed.

Lemma count_present (xs : list float64) :
  Pd.count xs = length (present xs).
Proof. done. Qed.

End FloatSums.

(** ** The average year-over-year change, whatever float64 rounds to *)

Section IeeeSums.

Import Ieee.

Context (add div : float64 → float64 → float64).
Context (Hadd : add_rules add) (Hdiv : div_rules div).

Lemma eval_pinf_or_nan (t : order) :
  PInf ∈ cells t → eval add t = PInf ∨ eval add t = NaN.
Proof.
  induction t as [x | l IHl r IHr]; simpl.
  - intros <-%list_elem_of_singleton. by left.
  - intros [Hin | Hin]%elem_of_app.
    + destruct (IHl Hin) as [-> | ->]; [| right; apply Hadd].
      destruct (decide (eval add r = NaN)) as [-> | ?];
        [right; apply Hadd |].
      destruct (decide (eval add r = NInf)) as [-> | ?];
        [right; apply Hadd |].
      left. by apply Hadd.
    + destruct (IHr Hin) as [-> | ->]; [| right; apply Hadd].
      destruct (decide (eval add l = NaN)) as [-> | ?];
        [right; apply Hadd |].
      destruct (decide (eval add l = NInf)) as [-> | ?];
        [right; apply Hadd |].
      left. by apply Hadd.
Qed.

Lemma eval_ninf_or_nan (t : order) :
  NInf ∈ cells t → eval add t = NInf ∨ eval add t = NaN.
Proof.
  induction t as [x | l IHl r IHr]; simpl.
  - intros <-%list_elem_of_singleton. by left.
  - intros [Hin | Hin]%elem_of_app.
    + destruct (IHl Hin) as [-> | ->]; [| right; apply Hadd].
      destruct (decide (eval add r = NaN)) as [-> | ?];
        [right; apply Hadd |].
      destruct (decide (eval add r = PInf)) as [-> | ?];
        [right; apply Hadd |].
      left. by apply Hadd.
    + destruct (IHr Hin) as [-> | ->]; [| right; apply Hadd].
      destruct (decide (eval add l = NaN)) as [-> | ?];
        [right; apply Hadd |].
      destruct (decide (eval add l = PInf)) as [-> | ?];
        [right; apply Hadd |].
      left. by apply Hadd.
Qed.

(** Infinities of both signs among the cells make the sum [nan], in any
    order and whatever the additions of numbers give. *)
Lemma eval_both_infinities (t : order) :
  PInf ∈ cells t → NInf ∈ cells t → eval add t = NaN.
Proof.
  induction t as [x | l IHl r IHr]; simpl.
  - intros Hp%list_elem_of_singleton Hn%list_elem_of_singleton.
    congruence.
  - intros [Hp | Hp]%elem_of_app [Hn | Hn]%elem_of_app.
    + rewrite IHl by done. apply Hadd.
    + destruct (eval_pinf_or_nan l Hp) as [-> | ->]; [| apply Hadd].
      destruct (eval_ninf_or_nan r Hn) as [-> | ->]; apply Hadd.
    + destruct (eval_ninf_or_nan l Hn) as [-> | ->]; [| apply Hadd].
      destruct (eval_pinf_or_nan r Hp) as [-> | ->]; apply Hadd.
    + rewrite IHr by done. apply Hadd.
Qed.

Lemma eval_numbers (t : order) :
  no_overflow add t = true →
  Forall (λ x, isfinite x = true) (cells t) →
  isfinite (eval add t) = true.
Proof.
  induction t as [x | l IHl r IHr]; simpl.
  - intros _ H. by apply (proj1 (Forall_singleton _ _)) in H.
  - intros [[Hl Hr]%andb_true_iff Himp]%andb_true_iff
      [Hcl Hcr]%Forall_app.
    rewrite (IHl Hl Hcl), (IHr Hr Hcr) in Himp. done.
Qed.

Lemma number_or_special (x : float64) :
  x ≠ NaN → x ≠ PInf → x ≠ NInf → isfinite x = true.
Proof. by destruct x. Qed.

Lemma eval_only_pinf (t : order) :
  no_overflow add t = true →
  NaN ∉ cells t → NInf ∉ cells t → PInf ∈ cells t →
  eval add t = PInf.
Proof.
  induction t as [x | l IHl r IHr]; simpl.
  - by intros _ _ _ <-%list_elem_of_singleton.
  - intros [[Hl Hr]%andb_true_iff _]%andb_true_iff Hnan Hninf Hpinf.
    rewrite elem_of_app in Hnan, Hninf, Hpinf.
    assert (∀ s, no_overflow add s = true → NaN ∉ cells s →
                 NInf ∉ cells s → PInf ∉ cells s →
                 isfinite (eval add s) = true) as Hnum.
    { intros s Hs H1 H2 H3. apply eval_numbers; [done |].
      apply Forall_forall. intros x Hx.
      apply number_or_special; intros ->; done. }
    destruct (decide (PInf ∈ cells l)) as [Hpl | Hpl];
      destruct (decide (PInf ∈ cells r)) as [Hpr | Hpr].
    + rewrite IHl, IHr by naive_solver. by apply Hadd.
    + rewrite IHl by naive_solver.
      specialize (Hnum r Hr). destruct (eval add r) eqn:Er;
        try (by apply Hadd); exfalso; naive_solver.
    + rewrite IHr by naive_solver.
      specialize (Hnum l Hl). destruct (eval add l) eqn:El;
        try (by apply Hadd); exfalso; naive_solver.
    + naive_solver.
Qed.

Lemma eval_only_ninf (t : order) :
  no_overflow add t = true →
  NaN ∉ cells t → PInf ∉ cells t → NInf ∈ cells t →
  eval add t = NInf.
Proof.
  induction t as [x | l IHl r IHr]; simpl.
  - by intros _ _ _ <-%list_elem_of_singleton.
  - intros [[Hl Hr]%andb_true_iff _]%andb_true_iff Hnan Hpinf Hninf.
    rewrite elem_of_app in Hnan, Hninf, Hpinf.
    assert (∀ s, no_overflow add s = true → NaN ∉ cells s →
                 NInf ∉ cells s → PInf ∉ cells s →
                 isfinite (eval add s) = true) as Hnum.
    { intros s Hs H1 H2 H3. apply eval_numbers; [done |].
      apply Forall_forall. intros x Hx.
      apply number_or_special; intros ->; done. }
    destruct (decide (NInf ∈ cells l)) as [Hpl | Hpl];
      destruct (decide (NInf ∈ cells r)) as [Hpr | Hpr].
    + rewrite IHl, IHr by naive_solver. by apply Hadd.
    + rewrite IHl by naive_solver.
      specialize (Hnum r Hr). destruct (eval add r) eqn:Er;
        try (by apply Hadd); exfalso; naive_solver.
    + rewrite IHr by naive_solver.
      specialize (Hnum l Hl). destruct (eval add l) eqn:El;
        try (by apply Hadd); exfalso; naive_solver.
    + naive_solver.
Qed.

End IeeeSums.

Section IeeeInstances.

Import Ieee.

Lemma fadd_rules : add_rules fadd.
Proof.
  split; try done.
  all: try (by intros []).
  - intros [q | | |]; try done. simpl. by rewrite Qcplus_0_l.
  - intros [q | | |]; try done. simpl. by rewrite Qcplus_0_r.
Qed.

Lemma Qc_one_le_pos (n : Qc) : (1 <= n)%Qc → ¬ (n < 0)%Qc ∧ n ≠ 0%Qc.
Proof.
  intros Hn. assert (0 < n)%Qc as Hpos.
  { eapply Qclt_le_trans; [| exact Hn]. done. }
  split.
  - intros Hlt. eapply Qclt_not_le; [exact Hpos |]. by apply Qclt_le_weak.
  - intros ->. by apply Qclt_not_eq in Hpos.
Qed.

Lemma fdiv_rules : div_rules fdiv.
Proof.
  split.
  - done.
  - intros n [? ?]%Qc_one_le_pos. simpl. by destruct (decide _).
  - intros n [? ?]%Qc_one_le_pos. simpl. by destruct (decide _).
  - intros a n [? ?]%Qc_one_le_pos. simpl. by destruct (decide _).
Qed.

Lemma fadd_overflowing_rules : add_rules fadd_overflowing.
Proof.
  split; try done.
  all: try (by intros []).
  all: intros; unfold fadd_overflowing, overflow.
  all: repeat match goal with x : float64 |- _ => destruct x end.
  all: by repeat destruct (decide _); subst.
Qed.

Lemma cells_not_nil (t : order) : cells t ≠ [].
Proof.
  induction t as [x | l IHl r IHr]; simpl; [done |].
  by destruct (cells l).
Qed.

Lemma cells_singleton (t : order) (x : float64) :
  cells t ≡ₚ [x] → t = Cell x.
Proof.
  destruct t as [y | l r]; simpl.
  - by intros ->%Permutation_singleton_r%(inj (λ y, [y])).
  - intros H%Permutation_length. rewrite length_app in H. simpl in H.
    pose proof (cells_not_nil l). pose proof (cells_not_nil r).
    destruct (cells l), (cells r); simpl in *; try done; lia.
Qed.

End IeeeInstances.

Section IeeeMean.

Import Ieee.

Context (add div : float64 → float64 → float64).
Context (Hadd : add_rules add) (Hdiv : div_rules div).

Ltac andb_hyps :=
  simpl in *;
  repeat match goal with
         | H : _ && _ = true |- _ => apply andb_true_iff in H as [? ?]
         end.

(** A zero can be left out of a summation: the sum is the same, and no
    addition overflows that did not before. *)
Lemma eval_without_zero (t : order) (L : list float64) :
  cells t ≡ₚ Fin 0%Qc :: L → L ≠ [] →
  ∃ t', cells t' ≡ₚ L ∧ eval add t' = eval add t
        ∧ (no_overflow add t = true → no_overflow add t' = true).
Proof.
  revert L. induction t as [x | l IHl r IHr]; simpl; intros L Hperm Hne.
  { apply Permutation_length in Hperm. by destruct L. }
  assert (Fin 0%Qc ∈ cells l ++ cells r) as Hin.
  { rewrite Hperm. left. }
  apply elem_of_app in Hin as [Hin | Hin].
  - apply elem_of_Permutation in Hin as [Ll Hl].
    assert (Ll ++ cells r ≡ₚ L) as HL.
    { apply (Permutation_cons_inv (a := Fin 0%Qc)).
      by rewrite <- Hperm, Hl. }
    destruct (decide (Ll = [])) as [-> | Hll].
    + apply cells_singleton in Hl as ->. exists r. simpl.
      split; [done |]. split; [by rewrite (add_zero_l _ Hadd) |].
      intros Hno. by andb_hyps.
    + destruct (IHl Ll Hl Hll) as (l' & Hc & He & Hno).
      exists (Plus l' r). simpl. rewrite Hc, He. split; [done |].
      split; [done |].
      intros [[? ?]%andb_true_iff ?]%andb_true_iff.
      rewrite Hno by done. by repeat (apply andb_true_iff; split).
  - apply elem_of_Permutation in Hin as [Lr Hr].
    assert (cells l ++ Lr ≡ₚ L) as HL.
    { apply (Permutation_cons_inv (a := Fin 0%Qc)).
      rewrite <- Hperm, Hr. by rewrite Permutation_middle. }
    destruct (decide (Lr = [])) as [-> | Hlr].
    + apply cells_singleton in Hr as ->. exists l. simpl.
      rewrite app_nil_r in HL.
      split; [done |]. split; [by rewrite (add_zero_r _ Hadd) |].
      intros Hno. by andb_hyps.
    + destruct (IHr Lr Hr Hlr) as (r' & Hc & He & Hno).
      exists (Plus l r'). simpl. rewrite Hc, He. split; [done |].
      split; [done |].
      intros [[? ?]%andb_true_iff ?]%andb_true_iff.
      rewrite Hno by done. by repeat (apply andb_true_iff; split).
Qed.

Lemma eval_without_zeros (k : nat) (t : order) (L : list float64) :
  cells t ≡ₚ replicate k (Fin 0%Qc) ++ L → L ≠ [] →
  ∃ t', cells t' ≡ₚ L ∧ eval add t' = eval add t
        ∧ (no_overflow add t = true → no_overflow add t' = true).
Proof.
  revert t. induction k as [| k IH]; simpl; intros t Hperm Hne.
  { by exists t. }
  destruct (eval_without_zero t (replicate k (Fin 0%Qc) ++ L) Hperm)
    as (t1 & Hc1 & He1 & Hno1).
  { by destruct (replicate k (Fin 0%Qc)), L. }
  destruct (IH t1 Hc1 Hne) as (t2 & Hc2 & He2 & Hno2).
  exists t2. split; [done |]. split; [congruence |]. auto.
Qed.

(** The exact sum of the numbers of a list. *)
Lemma Qc_sum_app (qs rs : list Qc) :
  Qc_sum (qs ++ rs) = (Qc_sum qs + Qc_sum rs)%Qc.
Proof.
  unfold Qc_sum. induction qs as [| q qs IH]; simpl.
  - by rewrite Qcplus_0_l.
  - rewrite IH. ring.
Qed.

Lemma Qc_sum_Permutation (qs rs : list Qc) :
  qs ≡ₚ rs → Qc_sum qs = Qc_sum rs.
Proof.
  unfold Qc_sum. induction 1; simpl; [done | congruence | ring | congruence].
Qed.

Lemma Qc_sum_zeros (k : nat) : Qc_sum (replicate k 0%Qc) = 0%Qc.
Proof.
  unfold Qc_sum. induction k as [| k IH]; simpl; [done |].
  rewrite IH. ring.
Qed.

Lemma fmap_Fin_Permutation (xs : list float64) (qs : list Qc) :
  xs ≡ₚ Fin <$> qs → ∃ rs, xs = Fin <$> rs ∧ rs ≡ₚ qs.
Proof.
  intros H. remember (Fin <$> qs) as ys eqn:Hys. revert qs Hys.
  induction H as [| x xs ys H IH | x y xs | xs ys zs H1 IH1 H2 IH2];
    intros qs Hys.
  - exists []. by destruct qs.
  - destruct qs as [| q qs]; [done |]. injection Hys as -> ->.
    destruct (IH qs eq_refl) as (rs & -> & Hrs).
    exists (q :: rs). split; [done | by constructor].
  - destruct qs as [| q [| r qs]]; try done. injection Hys as -> -> ->.
    exists (r :: q :: qs). split; [done | apply perm_swap].
  - destruct (IH2 qs Hys) as (rs & Hrs & Hp2).
    destruct (IH1 rs Hrs) as (ss & Hss & Hp1).
    exists ss. split; [done | by etrans].
Qed.

(** Without rounding a summation gives the exact sum of its cells. *)
Lemma eval_no_rounding (t : order) (qs : list Qc) :
  no_rounding add t = true → cells t = Fin <$> qs →
  eval add t = Fin (Qc_sum qs).
Proof.
  revert qs. induction t as [x | l IHl r IHr]; simpl; intros qs Hno Hc.
  - destruct qs as [| q [| ? ?]]; try done. injection Hc as ->.
    unfold Qc_sum. simpl. by rewrite Qcplus_0_r.
  - symmetry in Hc. apply fmap_app_inv in Hc as (ql & qr & Hl & Hr & ->).
    apply andb_true_iff in Hno as [[Hnl Hnr]%andb_true_iff Hno].
    rewrite (IHl ql), (IHr qr) in * by done.
    apply bool_decide_eq_true in Hno. by rewrite Hno, Qc_sum_app.
Qed.

(** Where neither the additions nor the division round, the mean of
    numbers is their arithmetic mean. *)
Lemma nanmean_no_rounding (t : order) (xs : list float64) (qs : list Qc) :
  sums t xs → present xs = Fin <$> qs → qs ≠ [] →
  no_rounding add t = true →
  div (Fin (Qc_sum qs)) (of_int (Z.of_nat (length qs))) = Fin (Qc_mean qs) →
  nanmean add div xs t = Fin (Qc_mean qs).
Proof.
  intros [k Hk] Hp Hne Hno Hdivide. unfold nanmean.
  rewrite count_present, Hp, length_fmap.
  destruct (decide _) as [H0 | _]; [by destruct qs |].
  rewrite Hp in Hk.
  assert (replicate k (Fin 0%Qc) ++ (Fin <$> qs)
          = Fin <$> (replicate k 0%Qc ++ qs)) as Heq.
  { by rewrite fmap_app, fmap_replicate. }
  rewrite Heq in Hk.
  apply fmap_Fin_Permutation in Hk as (rs & Hc & Hrs).
  rewrite (eval_no_rounding t rs Hno Hc), (Qc_sum_Permutation _ _ Hrs).
  by rewrite Qc_sum_app, Qc_sum_zeros, Qcplus_0_l.
Qed.

Lemma one_le_count (n : nat) : n ≠ 0%nat → (1 <= Qc_of_Z (Z.of_nat n))%Qc.
Proof.
  intros Hn.
  assert (1%Qc = Qc_of_Z 1) as -> by (by apply Qc_is_canon).
  apply (proj1 (Z2Qc_inj_le _ _)). lia.
Qed.

Lemma present_not_nil (xs : list float64) :
  present xs ≠ [] ↔ ¬ Forall (λ x, x = NaN) xs.
Proof.
  rewrite <- count_zero_iff, count_present.
  by destruct (present xs).
Qed.

Lemma elem_of_present (xs : list float64) (x : float64) :
  x ∈ present xs ↔ x ≠ NaN ∧ x ∈ xs.
Proof.
  unfold present. rewrite list_elem_of_filter.
  destruct x; simpl; naive_solver.
Qed.

(** What a summation of a column adds: no [nan], and an infinity exactly
    when the column holds it. *)
Lemma sums_cells (t : order) (xs : list float64) :
  sums t xs →
  (NaN ∉ cells t)
  ∧ (PInf ∈ cells t ↔ PInf ∈ xs)
  ∧ (NInf ∈ cells t ↔ NInf ∈ xs).
Proof.
  intros [k Hk].
  assert (∀ x, x ≠ Fin 0%Qc → x ∈ cells t ↔ x ≠ NaN ∧ x ∈ xs) as Hin.
  { intros x Hx. rewrite Hk, elem_of_app, elem_of_replicate.
    rewrite elem_of_present. naive_solver. }
  split; [| split].
  - rewrite Hin by done. naive_solver.
  - rewrite Hin by done. naive_solver.
  - rewrite Hin by done. naive_solver.
Qed.

(** The present cells are all the summation has to add. *)
Lemma nanmean_of_present (t : order) (xs : list float64) :
  sums t xs → present xs ≠ [] →
  ∃ t', cells t' ≡ₚ present xs
        ∧ (no_overflow add t = true → no_overflow add t' = true)
        ∧ nanmean add div xs t =
            div (eval add t') (of_int (Z.of_nat (length (present xs)))).
Proof.
  intros [k Hk] Hne.
  destruct (eval_without_zeros k t (present xs) Hk Hne)
    as (t' & Hc & He & Hno).
  exists t'. split; [done |]. split; [done |].
  unfold nanmean. rewrite count_present, He.
  destruct (decide _) as [H0 | _]; [| done].
  by destruct (present xs).
Qed.

Lemma nanmean_all_nan (t : order) (xs : list float64) :
  Forall (λ x, x = NaN) xs → nanmean add div xs t = NaN.
Proof.
  intros Hall%count_zero_iff. unfold nanmean.
  by destruct (decide _).
Qed.

Lemma nanmean_both_infinities (t : order) (xs : list float64) :
  sums t xs → PInf ∈ xs → NInf ∈ xs → nanmean add div xs t = NaN.
Proof.
  intros Hs Hp Hn. unfold nanmean. destruct (decide _); [done |].
  destruct (sums_cells t xs Hs) as (_ & Hpc & Hnc).
  rewrite (eval_both_infinities add Hadd t) by naive_solver.
  apply Hdiv.
Qed.

(** An infinity in the column leaves two outcomes, that infinity and
    [nan], whatever the additions of numbers give. *)
Lemma nanmean_pinf_or_nan (t : order) (xs : list float64) :
  sums t xs → PInf ∈ xs →
  nanmean add div xs t = PInf ∨ nanmean add div xs t = NaN.
Proof.
  intros Hs Hp. unfold nanmean. destruct (decide _) as [| H0]; [by right |].
  destruct (sums_cells t xs Hs) as (_ & Hpc & _).
  pose proof (one_le_count _ H0) as Hle.
  destruct (eval_pinf_or_nan add Hadd t) as [-> | ->]; [naive_solver | |].
  - left. by apply Hdiv.
  - right. apply Hdiv.
Qed.

Lemma nanmean_ninf_or_nan (t : order) (xs : list float64) :
  sums t xs → NInf ∈ xs →
  nanmean add div xs t = NInf ∨ nanmean add div xs t = NaN.
Proof.
  intros Hs Hn. unfold nanmean. destruct (decide _) as [| H0]; [by right |].
  destruct (sums_cells t xs Hs) as (_ & _ & Hnc).
  pose proof (one_le_count _ H0) as Hle.
  destruct (eval_ninf_or_nan add Hadd t) as [-> | ->]; [naive_solver | |].
  - left. by apply Hdiv.
  - right. apply Hdiv.
Qed.

(** When no addition overflows, the kind of the mean follows from the
    cells of the column alone. *)
Lemma nanmean_kind (t : order) (xs : list float64) :
  sums t xs → no_overflow add t = true →
  let v := nanmean add div xs t in
  (Forall (λ x, x = NaN) xs ∧ v = NaN)
  ∨ (PInf ∈ xs ∧ NInf ∈ xs ∧ v = NaN)
  ∨ (PInf ∈ xs ∧ (NInf ∉ xs) ∧ v = PInf)
  ∨ (NInf ∈ xs ∧ (PInf ∉ xs) ∧ v = NInf)
  ∨ (¬ Forall (λ x, x = NaN) xs ∧ (PInf ∉ xs) ∧ (NInf ∉ xs)
     ∧ isfinite v = true).
Proof.
  intros Hs Hno v.
  destruct (decide (Pd.count xs = 0%nat)) as [H0 | H0].
  { left. apply count_zero_iff in H0. split; [done |].
    by apply nanmean_all_nan. }
  right.
  destruct (decide (PInf ∈ xs)) as [Hp | Hp];
    destruct (decide (NInf ∈ xs)) as [Hn | Hn].
  { left. split; [done |]. split; [done |].
    by apply nanmean_both_infinities. }
  all: right.
  all: destruct (sums_cells t xs Hs) as (Hnan & Hpc & Hnc).
  all: pose proof (one_le_count _ H0) as Hle.
  all: subst v; unfold nanmean; destruct (decide _); [done |].
  - left. split; [done |]. split; [done |].
    rewrite (eval_only_pinf add Hadd t) by naive_solver.
    by apply Hdiv.
  - right. left. split; [done |]. split; [done |].
    rewrite (eval_only_ninf add Hadd t) by naive_solver.
    by apply Hdiv.
  - right. right. split; [by rewrite <- count_zero_iff |].
    split; [done |]. split; [done |].
    assert (isfinite (eval add t) = true) as Hfin.
    { apply eval_numbers; [done |]. apply Forall_forall.
      intros x Hx. apply number_or_special; intros ->; naive_solver. }
    destruct (eval add t) as [a | | |]; try done.
    by apply Hdiv.
Qed.

End IeeeMean.

(** ** The average year-over-year change *)

Section AverageChange.

Import Ieee.

Lemma cells_foldl_Add (ys : list float64) (t : order) :
  cells (foldl (λ t y, Plus t (Cell y)) t ys) = cells t ++ ys.
Proof.
  revert t. induction ys as [| y ys IH]; intros t; simpl.
  - by rewrite app_nil_r.
  - rewrite IH. simpl. by rewrite <- app_assoc.
Qed.

Lemma eval_foldl_Add (add : float64 → float64 → float64)
    (ys : list float64) (t : order) :
  eval add (foldl (λ t y, Plus t (Cell y)) t ys) = foldl add (eval add t) ys.
Proof.
  revert t. induction ys as [| y ys IH]; intros t; simpl; [done |].
  by rewrite IH.
Qed.

Lemma nan_to_zero_present (xs : list float64) :
  ∃ k : nat, Pd.nan_to_zero <$> xs ≡ₚ replicate k (Fin 0%Qc) ++ present xs.
Proof.
  induction xs as [| x xs [k IH]]; [by exists 0%nat |].
  destruct (decide (x = NaN)) as [-> | Hx].
  - exists (S k). simpl. unfold present in *. rewrite filter_cons. simpl.
    by rewrite IH.
  - exists k. unfold present in *. rewrite filter_cons.
    assert (Pd.nan_to_zero x = x) as Hz by (by destruct x).
    assert (isnan x = false) as Hn by (by destruct x).
    rewrite fmap_cons, Hz, decide_True by done.
    by rewrite IH, Permutation_middle.
Qed.

Lemma left_to_right_sums (xs : list float64) : sums (left_to_right xs) xs.
Proof.
  destruct (nan_to_zero_present xs) as [k Hk]. exists (S k).
  unfold left_to_right. rewrite cells_foldl_Add. simpl. by rewrite Hk.
Qed.

Lemma float_mean_left_to_right (xs : list float64) :
  Pd.float_mean xs = nanmean fadd fdiv xs (left_to_right xs).
Proof.
  unfold Pd.float_mean, nanmean, Pd.float_sum, left_to_right.
  by rewrite eval_foldl_Add.
Qed.

Lemma fadd_no_rounding (t : order) : no_rounding fadd t = true.
Proof.
  induction t as [x | l IHl r IHr]; simpl; [done |].
  rewrite IHl, IHr. simpl.
  destruct (eval fadd l), (eval fadd r); try done.
  by apply bool_decide_eq_true.
Qed.

Lemma fadd_no_overflow (t : order) : no_overflow fadd t = true.
Proof.
  induction t as [x | l IHl r IHr]; simpl; [done |].
  rewrite IHl, IHr. simpl.
  by destruct (eval fadd l), (eval fadd r).
Qed.

(** C9 (amended).  The average year-over-year change is the float64 sum
    of the cells that are present, divided by their number: the empty
    cells are left out of the sum and of the divisor.  This holds for
    every addition and division that obey the rules of float64, whatever
    they round to, and for every order of summation; the exact sum from
    left to right of [yoy_change] is one of them.  The average is [nan]
    when every cell is empty, and also when the column holds infinities
    of both signs; an infinity in the column leaves that infinity and
    [nan] as outcomes.  When no addition of the sum overflows, these are
    the only cases of [nan], an infinity of one sign alone gives that
    infinity, and numbers give a number; when neither the additions nor
    the division round, that number is the arithmetic mean of the cells
    that are present. *)
Theorem yoy_change_skips_empty_cells (filtered : list MonthlyRow) :
  let col := YoY_Change <$> filtered in
  (yoy_change filtered = nanmean fadd fdiv col (left_to_right col)
   ∧ add_rules fadd ∧ div_rules fdiv
   ∧ sums (left_to_right col) col
   ∧ no_overflow fadd (left_to_right col) = true
   ∧ no_rounding fadd (left_to_right col) = true
   ∧ (∀ qs : list Qc, qs ≠ [] →
        fdiv (Fin (Qc_sum qs)) (of_int (Z.of_nat (length qs)))
        = Fin (Qc_mean qs)))
  ∧ ∀ (add div : float64 → float64 → float64) (t : order),
      add_rules add → div_rules div → sums t col →
      let v := nanmean add div col t in
      (Forall (λ x, x = NaN) col → v = NaN)
      ∧ (¬ Forall (λ x, x = NaN) col →
         ∃ t' : order,
           cells t' ≡ₚ present col
           ∧ (no_overflow add t = true → no_overflow add t' = true)
           ∧ v = div (eval add t')
                     (of_int (Z.of_nat (length (present col)))))
      ∧ (PInf ∈ col → NInf ∈ col → v = NaN)
      ∧ (PInf ∈ col → v = PInf ∨ v = NaN)
      ∧ (NInf ∈ col → v = NInf ∨ v = NaN)
      ∧ (no_overflow add t = true →
         (v = NaN ↔
            Forall (λ x, x = NaN) col ∨ (PInf ∈ col ∧ NInf ∈ col))
         ∧ (v = PInf ↔ PInf ∈ col ∧ (NInf ∉ col))
         ∧ (v = NInf ↔ NInf ∈ col ∧ (PInf ∉ col))
         ∧ (isfinite v = true ↔
              ¬ Forall (λ x, x = NaN) col
              ∧ (PInf ∉ col) ∧ (NInf ∉ col)))
      ∧ (no_rounding add t = true →
         ∀ qs : list Qc,
           present col = Fin <$> qs → qs ≠ [] →
           div (Fin (Qc_sum qs)) (of_int (Z.of_nat (length qs)))
           = Fin (Qc_mean qs) →
           v = Fin (Qc_mean qs)).
Proof.
  intros col. split.
  { split; [apply float_mean_left_to_right |].
    split; [apply fadd_rules |]. split; [apply fdiv_rules |].
    split; [apply left_to_right_sums |].
    split; [apply fadd_no_overflow |].
    split; [apply fadd_no_rounding |].
    intros qs Hne. rewrite fdiv_count; [done | by destruct qs]. }
  intros add div t Hadd Hdiv Hs v.
  split; [apply nanmean_all_nan |].
  split.
  { intros Hne%present_not_nil. by apply nanmean_of_present. }
  split; [by apply nanmean_both_infinities |].
  split; [by apply nanmean_pinf_or_nan |].
  split; [by apply nanmean_ninf_or_nan |].
  split; [| intros Hno qs Hp Hne Hdivide; by apply nanmean_no_rounding].
  intros Hno.
  assert (Forall (λ x, x = NaN) col → PInf ∉ col) as Hallp.
  { intros Hall Hin. by apply (proj1 (Forall_forall _ _) Hall) in Hin. }
  assert (Forall (λ x, x = NaN) col → NInf ∉ col) as Halln.
  { intros Hall Hin. by apply (proj1 (Forall_forall _ _) Hall) in Hin. }
  destruct (nanmean_kind add div Hadd Hdiv t col Hs Hno)
    as [[? Hv] | [(? & ? & Hv) | [(? & ? & Hv) | [(? & ? & Hv) | Hv]]]].
  5: destruct Hv as (? & ? & ? & Hv); fold v in Hv;
     destruct v; try done.
  1-4: fold v in Hv; rewrite Hv.
  all: repeat split; try done; try tauto; intros; exfalso; tauto.
Qed.

Lemma yoy_change_skips_empty_cells_witness :
  let col := YoY_Change <$> one_cell_empty in
  let v := nanmean fadd fdiv col (left_to_right col) in
  isfinite v = true ∧ v = yoy_change one_cell_empty.
Proof.
  intros col v.
  destruct (yoy_change_skips_empty_cells one_cell_empty) as [_ H].
  destruct (H fadd fdiv (left_to_right col))
    as (_ & _ & _ & _ & _ & Hk & _).
  - apply fadd_rules.
  - apply fdiv_rules.
  - apply left_to_right_sums.
  - split; [| reflexivity].
    apply Hk; [reflexivity |].
    unfold col, one_cell_empty, observation, of_int. simpl.
    rewrite Forall_cons, !elem_of_cons, !elem_of_nil.
    split; [| split].
    + intros [Hx _]. discriminate Hx.
    + intros [Hx | [Hx | [Hx | Hx]]];
        [discriminate Hx | discriminate Hx | discriminate Hx | exact Hx].
    + intros [Hx | [Hx | [Hx | Hx]]];
        [discriminate Hx | discriminate Hx | discriminate Hx | exact Hx].
Defined.

(** The proviso is needed: when an addition overflows, two numbers
    average to [inf], and with [-inf] after them to [nan]. *)
Lemma overflowing_sum_examples :
  let big := of_int (2 ^ 1023) in
  nanmean fadd_overflowing fdiv [big; big] (left_to_right [big; big]) = PInf
  ∧ nanmean fadd_overflowing fdiv [big; big; NInf]
      (left_to_right [big; big; NInf]) = NaN.
Proof. vm_compute. by split. Qed.

End AverageChange.

(** ** The average year-over-year change and the trend symbol *)

Section Metrics.

Local Open Scope Qc_scope.

Lemma float_mean_finite (xs : list float64) (qs : list Qc) :
  present xs = Fin <$> qs → qs ≠ [] →
  Pd.float_mean xs = Fin (Qc_mean qs).
Proof.
  intros Hp Hne. unfold Pd.float_mean.
  assert (Pd.count xs = length qs) as Hc.
  { by rewrite count_present, Hp, length_fmap. }
  rewrite Hc. destruct (decide _) as [H0 | H0].
  { by destruct qs. }
  rewrite fdiv_count by done. unfold Pd.float_sum.
  rewrite (foldl_fadd_finite xs qs) by done.
  unfold Qc_mean. do 2 f_equal. ring.
Qed.

Lemma float_mean_nan (xs : list float64) :
  Pd.float_mean xs = NaN ↔
    (Forall (λ x, x = NaN) xs ∨ (PInf ∈ xs ∧ NInf ∈ xs)).
Proof.
  unfold Pd.float_mean. destruct (decide _) as [H0 | H0].
  { apply count_zero_iff in H0. naive_solver. }
  rewrite fdiv_count by done.
  pose proof (foldl_fadd_nan (Pd.nan_to_zero <$> xs) (Fin 0)) as Hnan.
  pose proof (nan_not_in_nan_to_zero xs) as Hno.
  rewrite !elem_of_cons in Hnan.
  rewrite (elem_of_nan_to_zero_inf xs PInf) in Hnan by done.
  rewrite (elem_of_nan_to_zero_inf xs NInf) in Hnan by done.
  rewrite <- count_zero_iff.
  unfold Pd.float_sum. destruct (foldl fadd _ _) eqn:Hs.
  all: split; [try done | intros [? | [? ?]]; try done].
  all: try (exfalso; naive_solver).
  all: naive_solver.
Qed.

(** C9 as stated fails: with [inf] and [-inf] in the column the average
    is [nan] although no cell is empty. *)
Lemma yoy_change_nan_with_cells_present :
  ¬ (yoy_change both_infinities = NaN ↔
       Forall (λ x, x = NaN) (YoY_Change <$> both_infinities)).
Proof.
  intros [Hnan _].
  assert (yoy_change both_infinities = NaN) as H by (vm_compute; reflexivity).
  specialize (Hnan H). by inversion Hnan.
Qed.

(** C10.  The trend metric shows the rising chart exactly when the
    average year-over-year change is greater than zero; an average of
    zero, and the undefined average of a range in which every cell is
    empty, show the falling chart. *)
Theorem trend_upward_iff_positive (filtered : list MonthlyRow) :
  (trend filtered = ChartIncreasing ↔
     (yoy_change filtered = PInf
      ∨ ∃ q : Qc, yoy_change filtered = Fin q ∧ 0 < q))
  ∧ (yoy_change filtered = Fin 0 → trend filtered = ChartDecreasing)
  ∧ (Forall (λ x, x = NaN) (YoY_Change <$> filtered) →
     yoy_change filtered = NaN ∧ trend filtered = ChartDecreasing).
Proof.
  unfold trend. split; [| split].
  - destruct (yoy_change filtered) as [q | | |]; simpl.
    + case_bool_decide; naive_solver.
    + naive_solver.
    + naive_solver.
    + naive_solver.
  - intros ->. cbn [fgt]. case_bool_decide as Hlt; [| done].
    by apply Qclt_not_eq in Hlt.
  - intros Hall.
    assert (yoy_change filtered = NaN) as ->; [| done].
    apply float_mean_nan. by left.
Qed.

Lemma trend_upward_iff_positive_witness :
  yoy_change all_cells_empty = NaN ∧ trend all_cells_empty = ChartDecreasing.
Proof.
  apply (proj2 (proj2 (trend_upward_iff_positive all_cells_empty))).
  repeat constructor.
Defined.

End Metrics.

(** ** The year filter *)

Lemma filtered_data_filter (monthly_data : list MonthlyRow) (lo hi : Z) :
  filtered_data monthly_data (lo, hi) =
    filter (λ r, lo ≤ Year r ≤ hi) monthly_data.
Proof.
  unfold filtered_data, Pd.getitem_mask, year_mask. simpl.
  induction monthly_data as [| r rows IH]; [done |].
  cbn [fmap list_fmap zip_with]. rewrite !filter_cons. cbn [snd].
  repeat case_bool_decide; cbn [andb]; repeat case_decide;
    try done; try lia; cbn [fmap list_fmap fst]; by rewrite <- IH.
Qed.

(** ** Integer sums and grouping *)

Lemma wrap64_congr (a b : Z) :
  a `mod` 2 ^ 64 = b `mod` 2 ^ 64 → wrap64 a = wrap64 b.
Proof.
  intros H. unfold wrap64. f_equal.
  rewrite <- (Zplus_mod_idemp_l a), <- (Zplus_mod_idemp_l b). by rewrite H.
Qed.

Lemma wrap64_mod (a : Z) : wrap64 a `mod` 2 ^ 64 = a `mod` 2 ^ 64.
Proof.
  unfold wrap64. rewrite Zminus_mod, Zmod_mod, <- Zminus_mod. f_equal. lia.
Qed.

Lemma wrap64_small (a : Z) : - 2 ^ 63 ≤ a < 2 ^ 63 → wrap64 a = a.
Proof. intros H. unfold wrap64. rewrite Z.mod_small; lia. Qed.

Lemma wrap64_sum_wrapped (xs : list Z) :
  wrap64 (foldr Z.add 0 (wrap64 <$> xs)) = wrap64 (foldr Z.add 0 xs).
Proof.
  apply wrap64_congr. induction xs as [| x xs IH]; [done |].
  cbn [fmap list_fmap foldr].
  rewrite Zplus_mod, wrap64_mod, IH, <- Zplus_mod. done.
Qed.

Lemma unique_sorted_elem_of (ks : list Z) (k : Z) :
  k ∈ Pd.unique_sorted ks ↔ k ∈ ks.
Proof.
  unfold Pd.unique_sorted.
  by rewrite merge_sort_Permutation, elem_of_remove_dups.
Qed.

Lemma unique_sorted_NoDup (ks : list Z) : NoDup (Pd.unique_sorted ks).
Proof.
  unfold Pd.unique_sorted. rewrite merge_sort_Permutation.
  apply NoDup_remove_dups.
Qed.

Lemma unique_sorted_nil_iff (ks : list Z) : Pd.unique_sorted ks = [] ↔ ks = [].
Proof.
  split.
  - intros H. destruct ks as [| k ks]; [done |].
    assert (k ∈ Pd.unique_sorted (k :: ks)) as Hin.
    { apply unique_sorted_elem_of. by left. }
    rewrite H in Hin. by apply elem_of_nil in Hin.
  - by intros ->.
Qed.

Section GroupSums.

Context {A : Type} (key : A → Z) (val : A → Z).

(** A row adds its value to the group of its own key and to no other. *)
Lemma sum_one_key (ks : list Z) (k v : Z) :
  NoDup ks → k ∈ ks →
  foldr Z.add 0 ((λ k', if decide (k = k') then v else 0) <$> ks) = v.
Proof.
  induction ks as [| k' ks IH]; intros Hnd Hin.
  - by apply elem_of_nil in Hin.
  - apply NoDup_cons in Hnd as [Hk' Hnd]. cbn [fmap list_fmap foldr].
    destruct (decide (k = k')) as [-> | Hne].
    + assert (foldr Z.add 0
                ((λ k'', if decide (k' = k'') then v else 0) <$> ks) = 0)
        as ->; [| lia].
      clear IH Hin Hnd. induction ks as [| k ks IH]; [done |].
      cbn [fmap list_fmap foldr]. apply not_elem_of_cons in Hk' as [? ?].
      rewrite decide_False by done. rewrite IH; done.
    + apply elem_of_cons in Hin as [? | Hin]; [done |].
      rewrite IH; done.
Qed.

Lemma sum_pointwise_add (ks : list Z) (f g : Z → Z) :
  foldr Z.add 0 ((λ k, f k + g k) <$> ks) =
    foldr Z.add 0 (f <$> ks) + foldr Z.add 0 (g <$> ks).
Proof.
  induction ks as [| k ks IH]; [done |].
  cbn [fmap list_fmap foldr]. rewrite IH. lia.
Qed.

(** Regrouping by key conserves the plain sum. *)
Lemma sum_of_group_sums (ks : list Z) (rows : list A) :
  NoDup ks → (∀ r, r ∈ rows → key r ∈ ks) →
  foldr Z.add 0
    ((λ k, foldr Z.add 0 (val <$> filter (λ r, key r = k) rows)) <$> ks) =
    foldr Z.add 0 (val <$> rows).
Proof.
  intros Hnd. induction rows as [| r rows IH]; intros Hin.
  - clear Hnd Hin. induction ks as [| k ks IHk]; [done |].
    cbn [fmap list_fmap foldr]. by rewrite IHk, filter_nil.
  - cbn [fmap list_fmap foldr].
    rewrite <- IH by (intros r' Hr'; apply Hin; by right).
    rewrite <- (sum_one_key ks (key r) (val r)) at 1
      by (try done; apply Hin; by left).
    rewrite <- sum_pointwise_add. f_equal.
    apply list_fmap_ext. intros _ k _. rewrite filter_cons.
    destruct (decide (key r = k)); done.
Qed.

End GroupSums.

Lemma yearly_changes_totals (filtered : list MonthlyRow) :
  Yearly.Total_Arrests <$> yearly_changes filtered =
    wrap64 <$>
      ((λ k, foldr Z.add 0 (Arrests <$> filter (λ r, Year r = k) filtered))
         <$> Pd.unique_sorted (Year <$> filtered)).
Proof.
  unfold yearly_changes, Pd.groupby. rewrite <- !list_fmap_compose.
  apply list_fmap_ext. by intros _ k _.
Qed.

(** C2.  The per-year totals of the statistics table add up to the sum of
    the [Arrests] column of the filtered table, which is the total-arrests
    metric.  The sums are pandas sums of [int64] columns. *)
Theorem total_arrests_conserved (filtered : list MonthlyRow) :
  Pd.int_sum (Yearly.Total_Arrests <$> yearly_changes filtered) =
    Pd.int_sum (Arrests <$> filtered)
  ∧ total_arrests filtered = Pd.int_sum (Arrests <$> filtered).
Proof.
  split; [| done].
  rewrite yearly_changes_totals. unfold Pd.int_sum.
  rewrite wrap64_sum_wrapped. f_equal.
  apply (sum_of_group_sums Year Arrests).
  - apply unique_sorted_NoDup.
  - intros r Hr. apply unique_sorted_elem_of.
    apply list_elem_of_fmap. by exists r.
Qed.

(** Without wrap-around -- counts that are not negative and a total below
    [2^63] -- the same holds of the plain sums. *)
Lemma sum_filter_bounds (P : MonthlyRow → Prop) `{!∀ r, Decision (P r)}
    (rows : list MonthlyRow) :
  Forall (λ r, 0 ≤ Arrests r) rows →
  0 ≤ foldr Z.add 0 (Arrests <$> filter P rows)
    ≤ foldr Z.add 0 (Arrests <$> rows).
Proof.
  induction 1 as [| r rows Hr _ IH]; [done |].
  rewrite filter_cons. destruct (decide (P r)); cbn [fmap list_fmap foldr]; lia.
Qed.

Lemma total_arrests_exact (filtered : list MonthlyRow) :
  Forall (λ r, 0 ≤ Arrests r) filtered →
  foldr Z.add 0 (Arrests <$> filtered) < 2 ^ 63 →
  foldr Z.add 0 (Yearly.Total_Arrests <$> yearly_changes filtered) =
    foldr Z.add 0 (Arrests <$> filtered)
  ∧ total_arrests filtered = foldr Z.add 0 (Arrests <$> filtered).
Proof.
  intros Hpos Hsmall. split.
  - rewrite yearly_changes_totals, <- list_fmap_compose.
    rewrite <- (sum_of_group_sums Year Arrests
                  (Pd.unique_sorted (Year <$> filtered)) filtered).
    + f_equal. apply list_fmap_ext. intros _ k _. simpl.
      apply wrap64_small.
      pose proof (sum_filter_bounds (λ r, Year r = k) filtered Hpos). lia.
    + apply unique_sorted_NoDup.
    + intros r Hr. apply unique_sorted_elem_of.
      apply list_elem_of_fmap. by exists r.
  - unfold total_arrests, Pd.int_sum. apply wrap64_small.
    pose proof (sum_filter_bounds (λ _, True) filtered Hpos). lia.
Qed.

(** ** The per-year change of the statistics table *)

Section YearlyChanges.

Local Open Scope Qc_scope.

(** In a group of at most twelve rows, [shift(12)] leaves nothing but
    [nan]. *)
Lemma shift_short (n : nat) (x : list Z) :
  (length x ≤ n)%nat → Pd.shift n x = replicate (length x) NaN.
Proof.
  intros Hle. unfold Pd.shift.
  rewrite take_app_le by (rewrite length_replicate; lia).
  rewrite take_replicate. f_equal. lia.
Qed.

Lemma float_sum_all_nan (n : nat) : Pd.float_sum (replicate n NaN) = Fin 0.
Proof.
  unfold Pd.float_sum. rewrite (foldl_fadd_finite _ []).
  - f_equal; unfold Qc_sum; simpl; ring.
  - unfold present. induction n as [| n IH]; [done |].
    simpl. by rewrite filter_cons_False.
Qed.

Lemma signed_inf_minus_one_times_100 (q : Qc) :
  fmul (fsub (signed_inf q) (Fin 1)) (of_int 100) = signed_inf q.
Proof.
  assert (0 < Qc_of_Z 100) as Hpos.
  { rewrite <- Z2Qc_inj_0. by apply (proj1 (Z2Qc_inj_lt _ _)). }
  unfold signed_inf. repeat case_decide; simpl; try done.
  all: unfold signed_inf; rewrite decide_True by done; done.
Qed.

(** The per-year change of a group of at most twelve months divides by
    an empty sum: it is [inf], [-inf] or [nan], never a number. *)
Lemma yoy_lambda_short_group (x : list Z) :
  (length x ≤ 12)%nat →
  yoy_lambda x = signed_inf (Qc_of_Z (Pd.int_sum x)).
Proof.
  intros Hle. unfold yoy_lambda.
  rewrite shift_short, float_sum_all_nan by done.
  unfold of_int at 1. cbn [fdiv]. rewrite decide_True by done.
  apply signed_inf_minus_one_times_100.
Qed.

(** C1 (the code departs from it).  On two complete years the
    [YoY_Change] column of the per-year table is infinite in every row:
    within a group of twelve rows the shifted series is empty, its sum
    is zero, and the quotient is [inf]. *)
Theorem yearly_changes_yoy_change_infinite :
  yearly_changes two_years =
    [ {| Yearly.Year := 2018; Yearly.Total_Arrests := 120;
         Yearly.YoY_Change := PInf |};
      {| Yearly.Year := 2019; Yearly.Total_Arrests := 180;
         Yearly.YoY_Change := PInf |} ].
Proof. vm_compute. reflexivity. Qed.

End YearlyChanges.

(** ** Loading the data *)

Lemma string_app_assoc (s1 s2 s3 : string) :
  (s1 +:+ s2) +:+ s3 = s1 +:+ (s2 +:+ s3).
Proof.
  induction s1 as [| c s1 IH]; [done |].
  change (String c ((s1 +:+ s2) +:+ s3) = String c (s1 +:+ (s2 +:+ s3))).
  by rewrite IH.
Qed.

Lemma names_here (file rest : string) : names file (file +:+ rest).
Proof. by exists "", rest. Qed.

Lemma names_app_r (file a b : string) : names file b → names file (a +:+ b).
Proof.
  intros (before & after & ->). exists (a +:+ before), after.
  by rewrite string_app_assoc.
Qed.

(** The message of the [FileNotFoundError] handler names the three files. *)
Lemma missing_files_message_names (dir e : string) :
  names monthly_csv (missing_files_message dir e)
  ∧ names summary_csv (missing_files_message dir e)
  ∧ names averages_csv (missing_files_message dir e).
Proof.
  unfold missing_files_message. repeat split.
  - do 3 apply names_app_r. apply names_here.
  - do 5 apply names_app_r. apply names_here.
  - do 7 apply names_app_r. apply names_here.
Qed.

(** C6.  When [read_csv] raises [FileNotFoundError], the run ends with
    [st.stop()] right after one [st.error] whose text names the three
    files; nothing before it on the page is an error, a metric, a chart
    or a table. *)
Theorem missing_file_reports_and_stops (env : Env) :
  first_failure_is_missing env →
  ∃ (msg : string) (before : list St.event),
    (run env).1 = Stopped
    ∧ page (run env).2 = before ++ [St.error msg]
    ∧ Forall (λ e, reports e = false) before
    ∧ names monthly_csv msg
    ∧ names summary_csv msg
    ∧ names averages_csv msg.
Proof.
  intros Hmiss.
  assert (∃ e h, run env =
            (Stopped,
             {| heap := h;
                page := [St.set_page_config; St.markdown style_block;
                         St.title page_title; St.markdown introduction;
                         St.sidebar_write "Looking for data files in:"
                           (script_dir env)]
                        ++ [St.error (missing_files_message (script_dir env) e)]
             |})) as (e & h & Hrun).
  { destruct Hmiss as [H1 | [(m & H1 & H2) | (m & s & H1 & H2 & H3)]];
      script_step; rewrite H1; script_step;
      try (rewrite H2; script_step); try (rewrite H3; script_step);
      by eexists _, _. }
  exists (missing_files_message (script_dir env) e). eexists.
  rewrite Hrun. cbn [fst snd page]. split; [done |]. split; [done |].
  split; [| apply missing_files_message_names].
  repeat constructor.
Qed.

Lemma missing_file_reports_and_stops_witness :
  ∃ (msg : string) (before : list St.event),
    (run env_without_summary).1 = Stopped
    ∧ page (run env_without_summary).2 = before ++ [St.error msg]
    ∧ Forall (λ e, reports e = false) before
    ∧ names monthly_csv msg
    ∧ names summary_csv msg
    ∧ names averages_csv msg.
Proof.
  apply (missing_file_reports_and_stops env_without_summary).
  right. left. exists two_years. split; reflexivity.
Defined.

(** ** Runs over loaded tables *)

Lemma py_min_max_years (env : Env) (m : list MonthlyRow) :
  m ≠ [] →
  ∃ lo hi : Z,
    py_min (Pd.unique_sorted (Year <$> m)) = Some lo
    ∧ py_max (Pd.unique_sorted (Year <$> m)) = Some hi
    ∧ select_slider env (Pd.unique_sorted (Year <$> m)) (lo, hi) =
        selected_range env m.
Proof.
  intros Hne. unfold selected_range.
  destruct (Pd.unique_sorted (Year <$> m)) as [| y ys] eqn:Hy.
  - apply (proj1 (unique_sorted_nil_iff _)) in Hy. by destruct m.
  - by eexists _, _.
Qed.

(** Stepping a run through the load and the slider. *)
Ltac run_loaded Hload Hne env :=
  let H1 := fresh "Hmonthly" in
  let H2 := fresh "Hsummary" in
  let H3 := fresh "Haverages" in
  let lo := fresh "lo" in
  let hi := fresh "hi" in
  let Hlo := fresh "Hlo" in
  let Hhi := fresh "Hhi" in
  let Hsel := fresh "Hsel" in
  destruct Hload as (H1 & H2 & H3);
  destruct (py_min_max_years env _ Hne) as (lo & hi & Hlo & Hhi & Hsel);
  script_step;
  rewrite H1; script_step; rewrite H2; script_step; rewrite H3; script_step;
  rewrite Hlo, Hhi; script_step; rewrite Hsel.

Lemma pivots_agree (f : list MonthlyRow) :
  (yearly_comparison f = None ↔ ¬ NoDup (periods f))
  ∧ (yoy_pivot f = None ↔ ¬ NoDup (periods f)).
Proof.
  assert (NoDup ((λ r, (Month r, Year r)) <$> f) ↔ NoDup (periods f)) as Hswap.
  { unfold periods.
    rewrite (list_fmap_ext (λ r, (Month r, Year r))
               (prod_swap ∘ (λ r, (Year r, Month r))) f)
      by (intros; done).
    rewrite list_fmap_compose. apply NoDup_fmap.
    intros [? ?] [? ?] [= -> ->]. done. }
  unfold yearly_comparison, yoy_pivot, Pd.pivot. split.
  - destruct (decide _) as [Hnd | Hnd]; [| rewrite <- Hswap; done].
    split; [done |]. rewrite <- Hswap. done.
  - fold (periods f). destruct (decide _); naive_solver.
Qed.

(** The four metrics on the page are those of the filtered table. *)
Lemma key_metrics_on_page (env : Env) (m : list MonthlyRow)
    (s : list Summary.row) (a : list Averages.row) :
  loads env m s a → m ≠ [] →
  let f := filtered_data m (selected_range env m) in
  St.metric_int "Total Arrests" (total_arrests f) ∈ page (run env).2
  ∧ St.metric_float "Average Monthly Arrests" (avg_monthly f)
      ∈ page (run env).2
  ∧ St.metric_float "Average YoY Change" (yoy_change f) ∈ page (run env).2
  ∧ St.metric_trend "Overall Trend" (trend f) ∈ page (run env).2.
Proof.
  intros Hl Hne f. subst f. run_loaded Hl Hne env.
  destruct (yearly_comparison _) as [p |]; script_step;
    [destruct (yoy_pivot _) as [q |]; script_step |].
  all: repeat split; do 8 apply list_elem_of_further.
  all: repeat first [apply list_elem_of_here | apply list_elem_of_further].
Qed.



(** C4 (amended).  Over loaded tables, the run ends with the [ValueError]
    of [pivot] exactly when two rows of the filtered table carry the same
    (Year, Month); otherwise it runs to its end.  Rows outside the
    selected range are not looked at. *)
Theorem duplicate_period_in_range_raises (env : Env) (m : list MonthlyRow)
    (s : list Summary.row) (a : list Averages.row) :
  loads env m s a → m ≠ [] →
  let f := filtered_data m (selected_range env m) in
  ((run env).1 = Raised duplicate_entries ↔ ¬ NoDup (periods f))
  ∧ ((∃ g, (run env).1 = Done g) ↔ NoDup (periods f)).
Proof.
  intros Hl Hne f. subst f.
  destruct (pivots_agree (filtered_data m (selected_range env m)))
    as [Hp Hq].
  run_loaded Hl Hne env.
  destruct (yearly_comparison _) as [p |]; script_step.
  - destruct (yoy_pivot _) as [q |]; script_step.
    + assert (NoDup (periods (filtered_data m (selected_range env m))))
        as Hnd.
      { destruct (decide (NoDup (periods (filtered_data m
                            (selected_range env m))))) as [? | Hn];
          [done |]. by apply Hp in Hn. }
      split; split; try done; eauto.
    + assert (¬ NoDup (periods (filtered_data m (selected_range env m))))
        as Hnd by by apply Hq.
      split; split; try done. by intros [g ?].
  - assert (¬ NoDup (periods (filtered_data m (selected_range env m))))
      as Hnd by by apply Hp.
    split; split; try done. by intros [g ?].
Qed.

Lemma duplicate_period_in_range_raises_witness :
  (run (app_env duplicated_2018 untouched "2024-05-01")).1 =
    Raised duplicate_entries.
Proof.
  apply (duplicate_period_in_range_raises
           (app_env duplicated_2018 untouched "2024-05-01")
           duplicated_2018 [] []).
  - repeat split; reflexivity.
  - discriminate.
  - vm_compute. intros H. apply NoDup_cons in H as [H _].
    apply H. by left.
Defined.

(** C4 as stated fails: the monthly table holds the period (2018, 1)
    twice, the slider is on 2019, and the run reaches its end without an
    exception. *)
Lemma duplicate_outside_range_not_rejected :
  ¬ NoDup (periods duplicated_2018)
  ∧ loads (app_env duplicated_2018 only_2019 "2024-05-01")
      duplicated_2018 [] []
  ∧ ∃ g, (run (app_env duplicated_2018 only_2019 "2024-05-01")).1 = Done g.
Proof.
  split; [| split].
  - intros H. apply NoDup_cons in H as [H _]. apply H. by left.
  - repeat split; reflexivity.
  - eexists. vm_compute. reflexivity.
Qed.

(** ** The store: no operation touches an existing frame *)

Section Store.

Lemma preserves_ret {A} (a : A) : preserves (mret a).
Proof. intros σ. done. Qed.

Lemma preserves_emit (e : St.event) : preserves (emit e).
Proof. intros σ. done. Qed.

Lemma preserves_stop {A} : preserves (@stop A).
Proof. intros σ. done. Qed.

Lemma preserves_raise {A} (e : exn) : preserves (@raise A e).
Proof. intros σ. done. Qed.

Lemma preserves_alloc (f : frame) : preserves (alloc f).
Proof. intros σ. simpl. by apply prefix_app_r. Qed.

Lemma preserves_monthly_rows (r : nat) : preserves (monthly_rows r).
Proof.
  intros σ. unfold monthly_rows.
  destruct (heap σ !! r) as [[] |]; done.
Qed.

Lemma preserves_read_frame (r : nat) : preserves (read_frame r).
Proof. intros σ. unfold read_frame. destruct (heap σ !! r); done. Qed.

Lemma preserves_bind {A B} (m : M A) (f : A → M B) :
  preserves m → (∀ a, preserves (f a)) → preserves (m ≫= f).
Proof.
  intros Hm Hf σ. specialize (Hm σ). unfold mbind, M_bind.
  destruct (m σ) as [[a | | e] σ']; simpl in *; [| done | done].
  etrans; [exact Hm | apply Hf].
Qed.

Lemma preserves_try_except {A} (body : M A) (h1 h2 : string → M A) :
  preserves body → (∀ s, preserves (h1 s)) → (∀ s, preserves (h2 s)) →
  preserves (try_except body h1 h2).
Proof.
  intros Hb H1 H2 σ. specialize (Hb σ). unfold try_except.
  destruct (body σ) as [[a | | [s | s | s]] σ']; simpl in *; try done.
  all: etrans; [exact Hb |]; [apply H1 || apply H2].
Qed.

End Store.

Ltac preserves_step :=
  first
    [ apply preserves_bind; [| intros ?]
    | apply preserves_ret
    | apply preserves_emit
    | apply preserves_alloc
    | apply preserves_stop
    | apply preserves_raise
    | apply preserves_monthly_rows
    | apply preserves_read_frame
    | match goal with
      | |- preserves (match ?x with _ => _ end) => destruct x
      end ].

Lemma preserves_dashboard (env : Env) (loaded : nat * nat * nat) :
  preserves (dashboard env loaded).
Proof.
  destruct loaded as [[monthly_data summary_data] monthly_averages].
  unfold dashboard, select_year_range, filter_years, key_metrics,
    monthly_trends, year_comparison, seasonal_analysis, statistics,
    closing, averages_rows.
  repeat preserves_step.
Qed.

Lemma preserves_load_data (env : Env) : preserves (load_data env).
Proof.
  unfold load_data, read_csv.
  apply preserves_try_except; [| intros s | intros s]; repeat preserves_step.
Qed.

(** C7.  The dashboard leaves every frame of the store as it was: at any
    point the store extends the store it had after loading.  When a run
    reaches its end, [monthly_data] still refers to the table read from
    the file, and the filtered table, the two pivots and the per-year
    table are objects of their own, distinct from it and from each
    other. *)
Theorem derived_tables_are_fresh (env : Env) :
  (∀ loaded : nat * nat * nat, preserves (dashboard env loaded))
  ∧ (∀ (g : Globals.t) (σ' : state),
        run env = (Done g, σ') →
        ∃ (m : list MonthlyRow) (p : Pd.Pivot Z) (q : Pd.Pivot float64),
          let f := filtered_data m (Globals.year_range g) in
          read_monthly env (path_join (script_dir env) monthly_csv) = Table m
          ∧ heap σ' !! Globals.monthly_data g = Some (MonthlyFrame m)
          ∧ heap σ' !! Globals.filtered_data g = Some (MonthlyFrame f)
          ∧ yearly_comparison f = Some p
          ∧ heap σ' !! Globals.yearly_comparison g = Some (ArrestsPivot p)
          ∧ yoy_pivot f = Some q
          ∧ heap σ' !! Globals.yoy_pivot g = Some (YoYPivot q)
          ∧ heap σ' !! Globals.yearly_changes g =
              Some (YearlyFrame (yearly_changes f))
          ∧ NoDup [Globals.monthly_data g; Globals.summary_data g;
                   Globals.monthly_averages g; Globals.filtered_data g;
                   Globals.yearly_comparison g; Globals.yoy_pivot g;
                   Globals.yearly_changes g]).
Proof.
  split; [apply preserves_dashboard |].
  intros g σ' Hrun. revert Hrun. script_step.
  destruct (read_monthly env _) as [| e | m] eqn:Hm; script_step; try done.
  destruct (read_summary env _) as [| e | s] eqn:Hs; script_step; try done.
  destruct (read_averages env _) as [| e | a] eqn:Ha; script_step; try done.
  destruct (py_min _) as [lo |]; script_step; try done.
  destruct (py_max _) as [hi |]; script_step; try done.
  destruct (yearly_comparison _) as [p |] eqn:Hp; script_step; try done.
  destruct (yoy_pivot _) as [q |] eqn:Hq; script_step; try done.
  intros [= <- <-]. exists m, p, q. simpl.
  repeat split; try done.
  apply NoDup_ListNoDup. repeat constructor; simpl; lia.
Qed.

Lemma derived_tables_are_fresh_witness :
  ∃ (g : Globals.t) (σ' : state),
    run (app_env january_2019 untouched "2024-06-30") = (Done g, σ')
    ∧ heap σ' !! Globals.monthly_data g = Some (MonthlyFrame january_2019)
    ∧ Globals.filtered_data g ≠ Globals.monthly_data g.
Proof.
  assert (∃ g σ', run (app_env january_2019 untouched "2024-06-30") =
                    (Done g, σ')) as (g & σ' & Hrun)
    by (eexists _, _; vm_compute; reflexivity).
  exists g, σ'. split; [exact Hrun |].
  destruct (proj2 (derived_tables_are_fresh
                     (app_env january_2019 untouched "2024-06-30")) g σ' Hrun)
    as (m & p & q & Hm & H0 & H1 & H2 & H3 & H4 & H5 & H6 & Hnd).
  split.
  - vm_compute in Hm. injection Hm as <-. exact H0.
  - intros Heq. rewrite Heq in Hnd.
    apply NoDup_cons in Hnd as [Hnotin _]. apply Hnotin.
    do 2 right. by left.
Defined.

(** ** Two runs on the same inputs *)

(** C8.  Two runs that get the same files and the same selection on the
    slider end the same way (with the same variables, the same stop or the
    same exception), leave the same store of frames, and report the same
    metrics, charts, tables and errors; the clock and the working
    directory reach the footer and the debug lines only. *)
Theorem run_deterministic (env1 env2 : Env) :
  same_inputs env1 env2 →
  (run env1).1 = (run env2).1
  ∧ heap (run env1).2 = heap (run env2).2
  ∧ filter (λ e, reports e = true) (page (run env1).2) =
      filter (λ e, reports e = true) (page (run env2).2).
Proof.
  destruct env1 as [dir1 rm1 rs1 ra1 sel1 today1 cwd1 ls1].
  destruct env2 as [dir2 rm2 rs2 ra2 sel2 today2 cwd2 ls2].
  unfold same_inputs. simpl. intros (-> & -> & -> & -> & ->).
  script_step. unfold script_dir. simpl.
  destruct (rm2 _) as [| e | m]; script_step; [done | done |].
  destruct (rs2 _) as [| e | s]; script_step; [done | done |].
  destruct (ra2 _) as [| e | a]; script_step; [done | done |].
  destruct (py_min _) as [lo |]; script_step; [| done].
  destruct (py_max _) as [hi |]; script_step; [| done].
  destruct (yearly_comparison _) as [p |]; script_step; [| done].
  destruct (yoy_pivot _) as [q |]; script_step; done.
Qed.

Lemma run_deterministic_witness :
  (run (app_env two_years untouched "2024-05-01")).1 =
    (run (app_env two_years untouched "2024-06-30")).1
  ∧ heap (run (app_env two_years untouched "2024-05-01")).2 =
      heap (run (app_env two_years untouched "2024-06-30")).2
  ∧ filter (λ e, reports e = true)
      (page (run (app_env two_years untouched "2024-05-01")).2) =
    filter (λ e, reports e = true)
      (page (run (app_env two_years untouched "2024-06-30")).2).
Proof.
  apply run_deterministic. repeat split; reflexivity.
Defined.

(** ** The trailing averages of the aggregator *)

Section Trailing.

Import Aggregator.

Lemma last_n_app_last_n {A} (k : nat) (pre : list A) (x : A) :
  last_n k (last_n k pre ++ [x]) = last_n k (pre ++ [x]).
Proof.
  unfold last_n.
  rewrite <- (drop_app_le pre [x]) by lia.
  rewrite drop_drop. f_equal.
  rewrite length_drop, !length_app. simpl. lia.
Qed.

Lemma trailing_lookup (k : nat) (counts pre : list Z) (i : nat) :
  (i < length counts)%nat →
  trailing k (last_n k pre) counts !! i =
    Some (window_value k (last_n k (pre ++ take (S i) counts))).
Proof.
  revert pre i. induction counts as [| x rest IH]; intros pre i Hi.
  - simpl in Hi. lia.
  - cbn [trailing]. rewrite last_n_app_last_n. destruct i as [| i].
    + simpl. by rewrite take_0.
    + cbn [lookup list_lookup]. simpl in Hi.
      change (trailing k (last_n k (pre ++ [x])) rest !! i =
              Some (window_value k
                      (last_n k (pre ++ take (S (S i)) (x :: rest))))).
      rewrite IH by lia.
      by rewrite <- app_assoc.
Qed.

Lemma rolling_mean_lookup (k : nat) (counts : list Z) (i : nat) :
  (0 < k)%nat → (i < length counts)%nat →
  rolling_mean k counts !! i =
    Some (if decide (k - 1 ≤ i)%nat
          then Some (mean (take k (drop (i - (k - 1)) counts)))
          else None).
Proof.
  intros Hk Hi. unfold rolling_mean.
  change (@nil Z) with (last_n k (@nil Z)) at 1.
  rewrite trailing_lookup by done. f_equal. simpl.
  unfold window_value, last_n.
  rewrite length_drop, length_take, Nat.min_l by lia.
  destruct (decide (k - 1 ≤ i)%nat) as [Hle | Hlt].
  - rewrite decide_False by lia. do 2 f_equal.
    replace (S i - k)%nat with (i - (k - 1))%nat by lia.
    rewrite take_drop_commute. do 2 f_equal. lia.
  - rewrite decide_True by lia. done.
Qed.

(** C5.  Over the sorted series, the 3-month average at position [i] is
    the mean of the counts at [i-2 .. i] when [2 <= i] and is absent
    before; the 12-month average is the mean of the counts at
    [i-11 .. i] when [11 <= i] and is absent before. *)
Theorem rolling_averages_full_window (input : list Observation) (i : nat) :
  let counts := Arrests <$> sorted_series input in
  (i < length input)%nat →
  _3_Month_Avg input !! i =
    Some (if decide (2 ≤ i)%nat
          then Some (mean (take 3 (drop (i - 2) counts)))
          else None)
  ∧ _12_Month_Avg input !! i =
      Some (if decide (11 ≤ i)%nat
            then Some (mean (take 12 (drop (i - 11) counts)))
            else None).
Proof.
  intros counts Hi.
  assert (i < length counts)%nat as Hc.
  { unfold counts, sorted_series.
    by rewrite length_fmap, merge_sort_Permutation. }
  unfold _3_Month_Avg, _12_Month_Avg. fold counts.
  rewrite !rolling_mean_lookup by (done || lia). done.
Qed.

Lemma rolling_averages_full_window_witness :
  _3_Month_Avg scenario !! 2%nat = Some (Some (mean [10; 20; 30]))
  ∧ _12_Month_Avg scenario !! 2%nat = Some None.
Proof.
  apply (rolling_averages_full_window scenario 2). simpl. lia.
Defined.

End Trailing.


(** * Further properties of the script *)

(** ** Loading, continued *)

(** X1.  When the first file that fails is one that does not parse, the
    run ends with [st.stop()] right after one [st.error] that carries the
    text of the exception; nothing before it on the page is an error, a
    metric, a chart or a table. *)
Theorem unparsable_file_reports_and_stops (env : Env) (e : string) :
  first_failure_is_unparsable env e →
  (run env).1 = Stopped
  ∧ page (run env).2 =
      page_before_loading env ++ [St.error (unexpected_error_message e)]
  ∧ Forall (λ ev, reports ev = false) (page_before_loading env).
Proof.
  intros Hfail. split; [| split].
  - destruct Hfail as [H1 | [(m & H1 & H2) | (m & s & H1 & H2 & H3)]];
      script_step; rewrite H1; script_step;
      try (rewrite H2; script_step); try (rewrite H3; script_step); done.
  - destruct Hfail as [H1 | [(m & H1 & H2) | (m & s & H1 & H2 & H3)]];
      script_step; rewrite H1; script_step;
      try (rewrite H2; script_step); try (rewrite H3; script_step); done.
  - repeat constructor.
Qed.

Lemma unparsable_file_reports_and_stops_witness :
  (run env_unparsable_monthly).1 = Stopped
  ∧ page (run env_unparsable_monthly).2 =
      page_before_loading env_unparsable_monthly
      ++ [St.error
            (unexpected_error_message "No columns to parse from file")]
  ∧ Forall (λ ev, reports ev = false)
      (page_before_loading env_unparsable_monthly).
Proof.
  apply (unparsable_file_reports_and_stops env_unparsable_monthly).
  left. reflexivity.
Defined.



(** X3.  A monthly file that parses but has no rows ends the run with the
    [ValueError] of [min] on an empty list, before the slider is drawn and
    before any metric, chart, table or error message. *)
Theorem empty_monthly_table_raises (env : Env) (s : list Summary.row)
    (a : list Averages.row) :
  loads env [] s a →
  (∃ text, (run env).1 = Raised (ValueError text))
  ∧ page (run env).2 =
      page_before_loading env ++ [St.sidebar_title "Dashboard Controls"]
  ∧ Forall (λ ev, reports ev = false) (page (run env).2).
Proof.
  intros (H1 & H2 & H3).
  assert (run env =
            (Raised (ValueError "min() arg is an empty sequence"),
             {| heap := [MonthlyFrame []; SummaryFrame s; AveragesFrame a];
                page := page_before_loading env
                        ++ [St.sidebar_title "Dashboard Controls"] |}))
    as Hrun.
  { script_step. rewrite H1. script_step. rewrite H2. script_step.
    rewrite H3. script_step. done. }
  rewrite Hrun. split; [by eexists |]. split; [done |].
  repeat constructor.
Qed.

Lemma empty_monthly_table_raises_witness :
  (∃ text, (run (app_env [] untouched "2024-05-01")).1 =
             Raised (ValueError text))
  ∧ page (run (app_env [] untouched "2024-05-01")).2 =
      page_before_loading (app_env [] untouched "2024-05-01")
      ++ [St.sidebar_title "Dashboard Controls"]
  ∧ Forall (λ ev, reports ev = false)
      (page (run (app_env [] untouched "2024-05-01")).2).
Proof.
  apply (empty_monthly_table_raises _ [] []). repeat split; reflexivity.
Defined.

(** X4.  Whatever the files hold and however the run ends, the page
    begins with the page configuration, the style block, the title, the
    introduction and the line that tells where the files are looked for;
    [st.set_page_config] is the first call. *)
Theorem page_begins_with_header (env : Env) :
  page_before_loading env `prefix_of` page (run env).2.
Proof.
  unfold page_before_loading. script_step.
  destruct (read_monthly env _) as [| e | m]; script_step;
    [by eexists | by eexists |].
  destruct (read_summary env _) as [| e | s]; script_step;
    [by eexists | by eexists |].
  destruct (read_averages env _) as [| e | a]; script_step;
    [by eexists | by eexists |].
  destruct (py_min _) as [lo |]; script_step; [| by eexists].
  destruct (py_max _) as [hi |]; script_step; [| by eexists].
  destruct (yearly_comparison _) as [p |]; script_step; [| by eexists].
  destruct (yoy_pivot _) as [q |]; script_step; by eexists.
Qed.

(** X5.  Once the three files are loaded the page never shows an
    [st.error]: what fails after the load (an empty table, a duplicated
    period) is an exception that nothing catches. *)
Theorem no_error_message_after_loading (env : Env) (m : list MonthlyRow)
    (s : list Summary.row) (a : list Averages.row) :
  loads env m s a →
  Forall (λ ev, is_error ev = false) (page (run env).2)
  ∧ (run env).1 ≠ Stopped.
Proof.
  intros (H1 & H2 & H3).
  script_step. rewrite H1. script_step. rewrite H2. script_step.
  rewrite H3. script_step.
  destruct (py_min _) as [lo |]; script_step;
    [| split; [repeat constructor | done]].
  destruct (py_max _) as [hi |]; script_step;
    [| split; [repeat constructor | done]].
  destruct (yearly_comparison _) as [p |]; script_step;
    [| split; [repeat constructor | done]].
  destruct (yoy_pivot _) as [q |]; script_step;
    split; (repeat constructor) || done.
Qed.

Lemma no_error_message_after_loading_witness :
  Forall (λ ev, is_error ev = false)
    (page (run (app_env duplicated_2018 untouched "2024-05-01")).2)
  ∧ (run (app_env duplicated_2018 untouched "2024-05-01")).1 ≠ Stopped.
Proof.
  apply (no_error_message_after_loading _ duplicated_2018 [] []).
  repeat split; reflexivity.
Defined.

(** ** The year slider and the filter, continued *)

Lemma foldl_min_spec (l : list Z) (x : Z) :
  foldl Z.min x l ∈ x :: l ∧ ∀ y, y ∈ x :: l → foldl Z.min x l ≤ y.
Proof.
  revert x. induction l as [| z l IH]; intros x.
  - simpl. split; [by left |]. intros y ?%list_elem_of_singleton. lia.
  - simpl. destruct (IH (Z.min x z)) as [Hin Hle]. split.
    + apply elem_of_cons in Hin as [-> | Hin].
      * destruct (Z.min_spec x z) as [[_ ->] | [_ ->]];
          [by left | right; by left].
      * do 2 right. done.
    + intros y Hy.
      assert (foldl Z.min (Z.min x z) l ≤ Z.min x z) as Hmin
        by (apply Hle; by left).
      apply elem_of_cons in Hy as [-> | Hy]; [lia |].
      apply elem_of_cons in Hy as [-> | Hy]; [lia |].
      apply Hle. by right.
Qed.

Lemma foldl_max_spec (l : list Z) (x : Z) :
  foldl Z.max x l ∈ x :: l ∧ ∀ y, y ∈ x :: l → y ≤ foldl Z.max x l.
Proof.
  revert x. induction l as [| z l IH]; intros x.
  - simpl. split; [by left |]. intros y ?%list_elem_of_singleton. lia.
  - simpl. destruct (IH (Z.max x z)) as [Hin Hle]. split.
    + apply elem_of_cons in Hin as [-> | Hin].
      * destruct (Z.max_spec x z) as [[_ ->] | [_ ->]];
          [right; by left | by left].
      * do 2 right. done.
    + intros y Hy.
      assert (Z.max x z ≤ foldl Z.max (Z.max x z) l) as Hmax
        by (apply Hle; by left).
      apply elem_of_cons in Hy as [-> | Hy]; [lia |].
      apply elem_of_cons in Hy as [-> | Hy]; [lia |].
      apply Hle. by right.
Qed.

Lemma py_min_spec (l : list Z) (lo : Z) :
  py_min l = Some lo → lo ∈ l ∧ ∀ y, y ∈ l → lo ≤ y.
Proof.
  destruct l as [| x l]; [done |]. intros [= <-]. apply foldl_min_spec.
Qed.

Lemma py_max_spec (l : list Z) (hi : Z) :
  py_max l = Some hi → hi ∈ l ∧ ∀ y, y ∈ l → y ≤ hi.
Proof.
  destruct l as [| x l]; [done |]. intros [= <-]. apply foldl_max_spec.
Qed.

Lemma StronglySorted_le_NoDup_lt (l : list Z) :
  StronglySorted Z.le l → NoDup l → StronglySorted Z.lt l.
Proof.
  induction 1 as [| x l Hs IH Hall]; intros Hnd; [constructor |].
  apply NoDup_cons in Hnd as [Hx Hnd]. constructor; [by apply IH |].
  apply Forall_forall. intros y Hy.
  rewrite Forall_forall in Hall. specialize (Hall y Hy).
  assert (x ≠ y) by (intros ->; done). lia.
Qed.

Lemma unique_sorted_strictly (ks : list Z) :
  StronglySorted Z.lt (Pd.unique_sorted ks).
Proof.
  apply StronglySorted_le_NoDup_lt; [| apply unique_sorted_NoDup].
  unfold Pd.unique_sorted. apply StronglySorted_merge_sort; apply _.
Qed.

(** X6.  The options of the year slider are the years of the monthly
    table, each once and ascending, and its initial value is the pair of
    the smallest and the largest of them. *)
Theorem year_slider_options (env : Env) (m : list MonthlyRow)
    (s : list Summary.row) (a : list Averages.row) :
  loads env m s a → m ≠ [] →
  ∃ (years : list Z) (lo hi : Z),
    St.sidebar_select_slider "Select Year Range" years (lo, hi)
      ∈ page (run env).2
    ∧ StronglySorted Z.lt years
    ∧ (∀ y, y ∈ years ↔ ∃ r, r ∈ m ∧ Year r = y)
    ∧ lo ∈ years ∧ hi ∈ years
    ∧ (∀ y, y ∈ years → lo ≤ y ≤ hi).
Proof.
  intros Hl Hne.
  destruct (py_min_max_years env m Hne) as (lo0 & hi0 & Hmin & Hmax & _).
  exists (Pd.unique_sorted (Year <$> m)), lo0, hi0.
  destruct (py_min_spec _ _ Hmin) as [Hlo Hle].
  destruct (py_max_spec _ _ Hmax) as [Hhi Hge].
  split; [| split; [apply unique_sorted_strictly | split; [| by auto]]].
  - run_loaded Hl Hne env. rewrite Hmin in Hlo0. rewrite Hmax in Hhi0.
    injection Hlo0 as <-. injection Hhi0 as <-.
    destruct (yearly_comparison _) as [p |]; script_step;
      [destruct (yoy_pivot _) as [q |]; script_step |].
    all: do 6 apply list_elem_of_further; apply list_elem_of_here.
  - intros y. rewrite unique_sorted_elem_of, list_elem_of_fmap.
    naive_solver.
Qed.

Lemma year_slider_options_witness :
  ∃ (years : list Z) (lo hi : Z),
    St.sidebar_select_slider "Select Year Range" years (lo, hi)
      ∈ page (run (app_env duplicated_2018 only_2019 "2024-05-01")).2
    ∧ StronglySorted Z.lt years
    ∧ (∀ y, y ∈ years ↔ ∃ r, r ∈ duplicated_2018 ∧ Year r = y)
    ∧ lo ∈ years ∧ hi ∈ years
    ∧ (∀ y, y ∈ years → lo ≤ y ≤ hi).
Proof.
  apply (year_slider_options _ duplicated_2018 [] []).
  - repeat split; reflexivity.
  - discriminate.
Defined.

Lemma filter_all {A} (P : A → Prop) `{!∀ x, Decision (P x)} (l : list A) :
  Forall P l → filter P l = l.
Proof.
  induction 1 as [| x l Hx _ IH]; [done |].
  by rewrite filter_cons_True, IH.
Qed.

(** X7.  With the slider left at its initial value the filter keeps every
    row of the monthly table: the metrics are those of the whole table. *)
Theorem untouched_slider_keeps_every_row (env : Env) (m : list MonthlyRow)
    (s : list Summary.row) (a : list Averages.row) :
  loads env m s a → m ≠ [] →
  (∀ options value, select_slider env options value = value) →
  filtered_data m (selected_range env m) = m
  ∧ St.metric_int "Total Arrests" (total_arrests m) ∈ page (run env).2.
Proof.
  intros Hl Hne Hsel.
  assert (filtered_data m (selected_range env m) = m) as Hall.
  { destruct (py_min_max_years env m Hne) as (lo & hi & Hmin & Hmax & <-).
    rewrite Hsel, filtered_data_filter. apply filter_all.
    apply Forall_forall. intros r Hr.
    destruct (py_min_spec _ _ Hmin) as [_ Hle].
    destruct (py_max_spec _ _ Hmax) as [_ Hge].
    assert (Year r ∈ Pd.unique_sorted (Year <$> m)) as Hy.
    { apply unique_sorted_elem_of, list_elem_of_fmap. by exists r. }
    split; [by apply Hle | by apply Hge]. }
  split; [done |].
  destruct (key_metrics_on_page env m s a Hl Hne) as [Htotal _].
  by rewrite Hall in Htotal.
Qed.

Lemma untouched_slider_keeps_every_row_witness :
  filtered_data two_years
    (selected_range (app_env two_years untouched "2024-05-01") two_years) =
    two_years
  ∧ St.metric_int "Total Arrests" (total_arrests two_years)
      ∈ page (run (app_env two_years untouched "2024-05-01")).2.
Proof.
  apply (untouched_slider_keeps_every_row _ two_years [] []).
  - repeat split; reflexivity.
  - discriminate.
  - reflexivity.
Defined.

(** X8.  Narrowing the range only removes rows: the table of a range is
    what the filter gives on the table of any wider range, and it is that
    table with rows left out. *)
Theorem narrower_range_filters_further (m : list MonthlyRow)
    (lo hi lo' hi' : Z) :
  lo' ≤ lo → hi ≤ hi' →
  filtered_data (filtered_data m (lo', hi')) (lo, hi) =
    filtered_data m (lo, hi)
  ∧ filtered_data m (lo, hi) `sublist_of` filtered_data m (lo', hi').
Proof.
  intros Hlo Hhi.
  assert (filtered_data (filtered_data m (lo', hi')) (lo, hi) =
            filtered_data m (lo, hi)) as Heq.
  { rewrite !filtered_data_filter, list_filter_filter.
    apply list_filter_iff. intros r. lia. }
  split; [done |].
  rewrite <- Heq, (filtered_data_filter (filtered_data _ _)).
  apply sublist_filter.
Qed.

Lemma narrower_range_filters_further_witness :
  filtered_data (filtered_data two_years (2018, 2019)) (2019, 2019) =
    filtered_data two_years (2019, 2019)
  ∧ filtered_data two_years (2019, 2019)
      `sublist_of` filtered_data two_years (2018, 2019).
Proof.
  apply narrower_range_filters_further; lia.
Defined.

(** ** The average of the monthly counts *)

Section Average.

Local Open Scope Qc_scope.

Lemma present_of_int (xs : list Z) :
  present (of_int <$> xs) = Fin <$> (Qc_of_Z <$> xs).
Proof.
  unfold present. induction xs as [| x xs IH]; [done |].
  cbn [fmap list_fmap]. rewrite filter_cons_True by done.
  f_equal. exact IH.
Qed.

Lemma Qc_sum_of_Z (xs : list Z) :
  Qc_sum (Qc_of_Z <$> xs) = Qc_of_Z (foldr Z.add 0%Z xs).
Proof.
  induction xs as [| x xs IH]; [symmetry; apply Z2Qc_inj_0 |].
  cbn [fmap list_fmap foldr Qc_sum]. fold (Qc_sum (Qc_of_Z <$> xs)).
  by rewrite Z2Qc_inj_add, IH.
Qed.

Lemma int_mean_exact (xs : list Z) :
  xs ≠ [] →
  Pd.int_mean xs =
    Fin (Qc_of_Z (foldr Z.add 0%Z xs) / Qc_of_Z (Z.of_nat (length xs))).
Proof.
  intros Hne. unfold Pd.int_mean.
  rewrite (float_mean_finite _ (Qc_of_Z <$> xs)).
  - unfold Qc_mean. by rewrite Qc_sum_of_Z, length_fmap.
  - apply present_of_int.
  - by destruct xs.
Qed.



End Average.

(** X10.  A range whose lower end is a year of the table and does not
    exceed its upper end -- every range the slider can return -- selects
    at least one row, so the average of the counts is a number. *)
Theorem slider_range_selects_rows (m : list MonthlyRow) (lo hi : Z) :
  lo ∈ Year <$> m → lo ≤ hi →
  filtered_data m (lo, hi) ≠ []
  ∧ isfinite (avg_monthly (filtered_data m (lo, hi))) = true.
Proof.
  intros Hin Hle.
  assert (filtered_data m (lo, hi) ≠ []) as Hne.
  { apply list_elem_of_fmap in Hin as (r & -> & Hr).
    assert (r ∈ filtered_data m (Year r, hi)) as Hrf.
    { rewrite filtered_data_filter. apply list_elem_of_filter. split; [lia | done]. }
    intros Hnil. rewrite Hnil in Hrf. by apply elem_of_nil in Hrf. }
  split; [done |].
  unfold avg_monthly. rewrite int_mean_exact; [done |].
  by destruct (filtered_data m (lo, hi)).
Qed.

Lemma slider_range_selects_rows_witness :
  filtered_data duplicated_2018 (2019, 2019) ≠ []
  ∧ isfinite (avg_monthly (filtered_data duplicated_2018 (2019, 2019))) = true.
Proof.
  apply slider_range_selects_rows; [| lia].
  do 2 apply list_elem_of_further. apply list_elem_of_here.
Defined.

(** ** The two pivots, continued *)

Section Pivot.

Context {A V : Type} (idx col : A → Z) (val : A → V).

Lemma head_filter_unique (rows : list A) (r : A) :
  NoDup ((λ x, (idx x, col x)) <$> rows) → r ∈ rows →
  head (filter (λ x, idx x = idx r ∧ col x = col r) rows) = Some r.
Proof.
  induction rows as [| x rows IH]; intros Hnd Hin.
  - by apply elem_of_nil in Hin.
  - cbn [fmap list_fmap] in Hnd. apply NoDup_cons in Hnd as [Hx Hnd].
    apply elem_of_cons in Hin as [-> | Hin].
    + by rewrite filter_cons_True.
    + rewrite filter_cons_False; [by apply IH |].
      intros [Hi Hc]. apply Hx. apply list_elem_of_fmap.
      exists r. by rewrite Hi, Hc.
Qed.

Lemma pivot_cell_None (rows : list A) (i c : Z) :
  Pd.pivot_cell idx col val rows i c = None ↔
    ¬ ∃ r, r ∈ rows ∧ idx r = i ∧ col r = c.
Proof.
  unfold Pd.pivot_cell. rewrite fmap_None. split.
  - intros Hhead (r & Hr & Hi & Hc).
    assert (r ∈ filter (λ r, idx r = i ∧ col r = c) rows) as Hin
      by by apply list_elem_of_filter.
    destruct (filter _ rows); [by apply elem_of_nil in Hin | done].
  - intros Hno.
    destruct (filter _ rows) as [| r l] eqn:Hf; [done |].
    exfalso. apply Hno. exists r.
    assert (r ∈ filter (λ r, idx r = i ∧ col r = c) rows) as Hin
      by (rewrite Hf; by left).
    apply list_elem_of_filter in Hin. naive_solver.
Qed.

(** What a pivot holds, read by positions. *)
Lemma pivot_spec (rows : list A) (p : Pd.Pivot V) :
  Pd.pivot idx col val rows = Some p →
  NoDup ((λ r, (idx r, col r)) <$> rows)
  ∧ Pd.index p = Pd.unique_sorted (idx <$> rows)
  ∧ Pd.columns p = Pd.unique_sorted (col <$> rows)
  ∧ (∀ i a, Pd.index p !! i = Some a →
       Pd.cells p !! i =
         Some ((λ c, Pd.pivot_cell idx col val rows a c) <$> Pd.columns p)).
Proof.
  unfold Pd.pivot. destruct (decide _) as [Hnd |]; [| done].
  intros [= <-]. cbn [Pd.index Pd.columns Pd.cells].
  repeat split; try done.
  intros i a Hi. by rewrite list_lookup_fmap, Hi.
Qed.

Lemma pivot_shape (rows : list A) (p : Pd.Pivot V) :
  Pd.pivot idx col val rows = Some p →
  length (Pd.cells p) = length (Pd.index p)
  ∧ Forall (λ row, length row = length (Pd.columns p)) (Pd.cells p).
Proof.
  unfold Pd.pivot. destruct (decide _) as [Hnd |]; [| done].
  intros [= <-]. cbn [Pd.index Pd.columns Pd.cells].
  split; [by rewrite length_fmap |].
  apply Forall_fmap, Forall_forall. intros i _. simpl.
  by rewrite length_fmap.
Qed.

Lemma pivot_holds_every_row (rows : list A) (p : Pd.Pivot V) (r : A) :
  Pd.pivot idx col val rows = Some p → r ∈ rows →
  ∃ (i j : nat) (row : list (option V)),
    Pd.index p !! i = Some (idx r) ∧ Pd.columns p !! j = Some (col r)
    ∧ Pd.cells p !! i = Some row ∧ row !! j = Some (Some (val r)).
Proof.
  intros Hp Hr. destruct (pivot_spec rows p Hp) as (Hnd & Hix & Hcs & Hcells).
  assert (idx r ∈ Pd.index p) as Hi.
  { rewrite Hix. apply unique_sorted_elem_of, list_elem_of_fmap. by exists r. }
  assert (col r ∈ Pd.columns p) as Hj.
  { rewrite Hcs. apply unique_sorted_elem_of, list_elem_of_fmap. by exists r. }
  apply list_elem_of_lookup in Hi as [i Hi].
  apply list_elem_of_lookup in Hj as [j Hj].
  exists i, j. eexists. split; [done |]. split; [done |].
  split; [by apply Hcells |].
  rewrite list_lookup_fmap, Hj. simpl. f_equal.
  unfold Pd.pivot_cell. by rewrite head_filter_unique.
Qed.

Lemma pivot_empty_cells (rows : list A) (p : Pd.Pivot V)
    (i j : nat) (a c : Z) (row : list (option V)) :
  Pd.pivot idx col val rows = Some p →
  Pd.index p !! i = Some a → Pd.columns p !! j = Some c →
  Pd.cells p !! i = Some row →
  row !! j = Some None ↔ ¬ ∃ r, r ∈ rows ∧ idx r = a ∧ col r = c.
Proof.
  intros Hp Hi Hj Hrow.
  destruct (pivot_spec rows p Hp) as (_ & _ & _ & Hcells).
  rewrite (Hcells i a Hi) in Hrow. injection Hrow as <-.
  rewrite list_lookup_fmap, Hj. simpl. rewrite <- pivot_cell_None.
  split; [by intros [= ->] | by intros ->].
Qed.

End Pivot.

(** X11.  When the year-comparison pivot is built, its index is the
    months and its columns are the years of the filtered table, each once
    and ascending; it has one line per month and one cell per year in each
    line; the cell of a row's month and year holds the row's count; and a
    cell is empty exactly when no row has that month and year. *)
Theorem year_comparison_pivot_cells (f : list MonthlyRow) (p : Pd.Pivot Z) :
  yearly_comparison f = Some p →
  StronglySorted Z.lt (Pd.index p) ∧ StronglySorted Z.lt (Pd.columns p)
  ∧ (∀ mo, mo ∈ Pd.index p ↔ mo ∈ Month <$> f)
  ∧ (∀ y, y ∈ Pd.columns p ↔ y ∈ Year <$> f)
  ∧ length (Pd.cells p) = length (Pd.index p)
  ∧ Forall (λ row, length row = length (Pd.columns p)) (Pd.cells p)
  ∧ (∀ r, r ∈ f →
       ∃ (i j : nat) (row : list (option Z)),
         Pd.index p !! i = Some (Month r) ∧ Pd.columns p !! j = Some (Year r)
         ∧ Pd.cells p !! i = Some row ∧ row !! j = Some (Some (Arrests r)))
  ∧ (∀ (i j : nat) (mo y : Z) (row : list (option Z)),
       Pd.index p !! i = Some mo → Pd.columns p !! j = Some y →
       Pd.cells p !! i = Some row →
       row !! j = Some None ↔ ¬ ∃ r, r ∈ f ∧ Month r = mo ∧ Year r = y).
Proof.
  intros Hp. unfold yearly_comparison in Hp.
  destruct (pivot_spec _ _ _ _ _ Hp) as (_ & Hix & Hcs & _).
  destruct (pivot_shape _ _ _ _ _ Hp) as [Hlen Hrows].
  split; [rewrite Hix; apply unique_sorted_strictly |].
  split; [rewrite Hcs; apply unique_sorted_strictly |].
  split; [intros mo; rewrite Hix; apply unique_sorted_elem_of |].
  split; [intros y; rewrite Hcs; apply unique_sorted_elem_of |].
  split; [done |]. split; [done |]. split.
  - intros r Hr. by apply (pivot_holds_every_row Month Year Arrests f).
  - intros i j mo y row. by apply (pivot_empty_cells Month Year Arrests f).
Qed.

(** X12.  Once the year-comparison pivot is built, the pivot of the
    heatmap is built too -- it never raises after the first -- with the
    years as its index and the months as its columns, and the cell of a
    row's year and month holds the row's year-over-year change. *)
Theorem heatmap_pivot_follows (f : list MonthlyRow) (p : Pd.Pivot Z) :
  yearly_comparison f = Some p →
  ∃ q : Pd.Pivot float64,
    yoy_pivot f = Some q
    ∧ Pd.index q = Pd.columns p ∧ Pd.columns q = Pd.index p
    ∧ (∀ r, r ∈ f →
         ∃ (i j : nat) (row : list (option float64)),
           Pd.index q !! i = Some (Year r)
           ∧ Pd.columns q !! j = Some (Month r)
           ∧ Pd.cells q !! i = Some row
           ∧ row !! j = Some (Some (YoY_Change r))).
Proof.
  intros Hp. destruct (pivots_agree f) as [Hfirst Hsecond].
  destruct (yoy_pivot f) as [q |] eqn:Hq.
  - exists q. split; [done |].
    unfold yearly_comparison in Hp. unfold yoy_pivot in Hq.
    destruct (pivot_spec _ _ _ _ _ Hp) as (_ & Hpi & Hpc & _).
    destruct (pivot_spec _ _ _ _ _ Hq) as (_ & Hqi & Hqc & _).
    split; [by rewrite Hqi, Hpc |]. split; [by rewrite Hqc, Hpi |].
    intros r Hr. by apply (pivot_holds_every_row Year Month YoY_Change f).
  - exfalso. assert (yearly_comparison f = None) as Hnone.
    { apply Hfirst. by apply Hsecond. }
    by rewrite Hp in Hnone.
Qed.

Lemma year_comparison_pivot_cells_witness :
  ∃ (i j : nat) (row : list (option Z)),
    Pd.index one_cell_empty_pivot !! i = Some 2
    ∧ Pd.columns one_cell_empty_pivot !! j = Some 2019
    ∧ Pd.cells one_cell_empty_pivot !! i = Some row
    ∧ row !! j = Some (Some 7).
Proof.
  assert (yearly_comparison one_cell_empty = Some one_cell_empty_pivot)
    as Hp by (vm_compute; reflexivity).
  destruct (year_comparison_pivot_cells one_cell_empty
              one_cell_empty_pivot Hp) as (_ & _ & _ & _ & _ & _ & H & _).
  apply (H (observation 2019 2 7 NaN)).
  apply list_elem_of_further, list_elem_of_here.
Defined.

Lemma heatmap_pivot_follows_witness :
  ∃ q : Pd.Pivot float64,
    yoy_pivot one_cell_empty = Some q
    ∧ Pd.index q = Pd.columns one_cell_empty_pivot
    ∧ Pd.columns q = Pd.index one_cell_empty_pivot
    ∧ (∀ r, r ∈ one_cell_empty →
         ∃ (i j : nat) (row : list (option float64)),
           Pd.index q !! i = Some (Year r)
           ∧ Pd.columns q !! j = Some (Month r)
           ∧ Pd.cells q !! i = Some row
           ∧ row !! j = Some (Some (YoY_Change r))).
Proof.
  apply heatmap_pivot_follows. vm_compute. reflexivity.
Defined.

(** ** The per-year table, continued *)

Lemma yearly_changes_years (f : list MonthlyRow) :
  Yearly.Year <$> yearly_changes f = Pd.unique_sorted (Year <$> f).
Proof.
  unfold yearly_changes, Pd.groupby. rewrite <- !list_fmap_compose.
  rewrite <- (list_fmap_id (Pd.unique_sorted _)) at 2.
  apply list_fmap_ext. by intros _ k _.
Qed.

Lemma elem_of_yearly_changes (f : list MonthlyRow) (row : Yearly.row) :
  row ∈ yearly_changes f →
  Yearly.Year row ∈ Year <$> f
  ∧ Yearly.Total_Arrests row =
      Pd.int_sum (Arrests <$> filter (λ r, Year r = Yearly.Year row) f)
  ∧ Yearly.YoY_Change row =
      yoy_lambda (Arrests <$> filter (λ r, Year r = Yearly.Year row) f).
Proof.
  unfold yearly_changes, Pd.groupby. rewrite <- list_fmap_compose.
  intros (k & -> & Hk)%list_elem_of_fmap. simpl.
  apply (proj1 (unique_sorted_elem_of _ _)) in Hk. done.
Qed.

(** X13.  The per-year table has one row for each year of the filtered
    table, in ascending order of year; the total of a row is the sum of
    the counts of the rows of that year, of which there is at least
    one. *)
Theorem yearly_changes_one_row_per_year (f : list MonthlyRow) :
  StronglySorted Z.lt (Yearly.Year <$> yearly_changes f)
  ∧ (∀ y, y ∈ Yearly.Year <$> yearly_changes f ↔ y ∈ Year <$> f)
  ∧ (∀ row, row ∈ yearly_changes f →
       filter (λ r, Year r = Yearly.Year row) f ≠ []
       ∧ Yearly.Total_Arrests row =
           Pd.int_sum
             (Arrests <$> filter (λ r, Year r = Yearly.Year row) f)).
Proof.
  rewrite yearly_changes_years.
  split; [apply unique_sorted_strictly |].
  split; [intros y; apply unique_sorted_elem_of |].
  intros row Hrow.
  destruct (elem_of_yearly_changes f row Hrow) as (Hy & Ht & _).
  split; [| done].
  apply list_elem_of_fmap in Hy as (r & Hyr & Hr).
  intros Hnil.
  assert (r ∈ filter (λ r, Year r = Yearly.Year row) f) as Hin
    by by apply list_elem_of_filter.
  rewrite Hnil in Hin. by apply elem_of_nil in Hin.
Qed.

Lemma yearly_changes_one_row_per_year_witness :
  filter (λ r, Year r = 2018) two_years ≠ []
  ∧ 120 =
      Pd.int_sum (Arrests <$> filter (λ r, Year r = 2018) two_years).
Proof.
  apply (proj2 (proj2 (yearly_changes_one_row_per_year two_years))
           {| Yearly.Year := 2018; Yearly.Total_Arrests := 120;
              Yearly.YoY_Change := PInf |}).
  assert (yearly_changes two_years =
            [ {| Yearly.Year := 2018; Yearly.Total_Arrests := 120;
                 Yearly.YoY_Change := PInf |};
              {| Yearly.Year := 2019; Yearly.Total_Arrests := 180;
                 Yearly.YoY_Change := PInf |} ]) as ->
    by (vm_compute; reflexivity).
  by left.
Defined.

Lemma months_of_a_year_NoDup (l : list MonthlyRow) (k : Z) :
  NoDup (periods l) → NoDup (Month <$> filter (λ r, Year r = k) l).
Proof.
  unfold periods. induction l as [| x l IH]; intros Hnd; [constructor |].
  cbn [fmap list_fmap] in Hnd. apply NoDup_cons in Hnd as [Hx Hnd].
  rewrite filter_cons. destruct (decide (Year x = k)) as [Hk | Hk];
    [| by apply IH].
  cbn [fmap list_fmap]. apply NoDup_cons. split; [| by apply IH].
  intros (r & Hm & Hr)%list_elem_of_fmap.
  apply list_elem_of_filter in Hr as [Hyr Hr].
  apply Hx. apply list_elem_of_fmap. exists r. split; [| done].
  by rewrite Hm, Hk, Hyr.
Qed.

Lemma year_group_at_most_12 (f : list MonthlyRow) (k : Z) :
  NoDup (periods f) → (∀ r, r ∈ f → 1 ≤ Month r ≤ 12) →
  (length (filter (λ r, Year r = k) f) ≤ 12)%nat.
Proof.
  intros Hnd Hmonths.
  rewrite <- (length_fmap Month).
  change 12%nat with (Z.to_nat 12). rewrite <- (length_seqZ 1 12).
  apply submseteq_length, NoDup_submseteq;
    [by apply months_of_a_year_NoDup |].
  intros mo (r & -> & Hr)%list_elem_of_fmap.
  apply list_elem_of_filter in Hr as [_ Hr].
  apply elem_of_seqZ. specialize (Hmonths r Hr). lia.
Qed.

Lemma signed_inf_of_Z (t : Z) :
  signed_inf (Qc_of_Z t) =
    if decide (0 < t) then PInf else if decide (t < 0) then NInf else NaN.
Proof.
  unfold signed_inf. rewrite <- Z2Qc_inj_0.
  destruct (decide (0 < t)) as [Hpos | Hpos].
  - rewrite decide_True; [done |]. by apply (proj1 (Z2Qc_inj_lt _ _)).
  - rewrite decide_False by (intros H%Z2Qc_inj_lt; done).
    destruct (decide (t < 0)) as [Hneg | Hneg].
    + rewrite decide_True; [done |]. by apply (proj1 (Z2Qc_inj_lt _ _)).
    + rewrite decide_False by (intros H%Z2Qc_inj_lt; done). done.
Qed.

(** X14.  In a table with at most one row per (Year, Month) and months
    from 1 to 12, no row of the per-year table has a number as its
    [YoY_Change]: it is [inf] when the year's total is positive, [nan]
    when it is zero and [-inf] when it is negative. *)
Theorem yearly_yoy_change_is_never_a_number (f : list MonthlyRow) :
  NoDup (periods f) → (∀ r, r ∈ f → 1 ≤ Month r ≤ 12) →
  ∀ row, row ∈ yearly_changes f →
    isfinite (Yearly.YoY_Change row) = false
    ∧ (0 < Yearly.Total_Arrests row → Yearly.YoY_Change row = PInf)
    ∧ (Yearly.Total_Arrests row = 0 → Yearly.YoY_Change row = NaN)
    ∧ (Yearly.Total_Arrests row < 0 → Yearly.YoY_Change row = NInf).
Proof.
  intros Hnd Hmonths row Hrow.
  destruct (elem_of_yearly_changes f row Hrow) as (_ & Ht & Hy).
  rewrite Hy, yoy_lambda_short_group, <- Ht, signed_inf_of_Z
    by (rewrite length_fmap; by apply year_group_at_most_12).
  repeat case_decide; repeat split; try done; lia.
Qed.

Lemma yearly_yoy_change_is_never_a_number_witness :
  ∃ row, row ∈ yearly_changes two_years
    ∧ Yearly.Year row = 2018
    ∧ isfinite (Yearly.YoY_Change row) = false.
Proof.
  assert (yearly_changes two_years =
            [ {| Yearly.Year := 2018; Yearly.Total_Arrests := 120;
                 Yearly.YoY_Change := PInf |};
              {| Yearly.Year := 2019; Yearly.Total_Arrests := 180;
                 Yearly.YoY_Change := PInf |} ]) as Heq
    by (vm_compute; reflexivity).
  eexists. split; [rewrite Heq; apply list_elem_of_here |].
  split; [reflexivity |].
  apply (yearly_yoy_change_is_never_a_number two_years).
  - apply (bool_decide_unpack _). vm_compute. exact I.
  - intros r Hr. apply (Forall_forall (λ r, 1 ≤ Month r ≤ 12) two_years);
      [| done].
    apply (bool_decide_unpack _). vm_compute. exact I.
  - rewrite Heq. apply list_elem_of_here.
Defined.

(** ** What a run over loaded tables shows *)

(** X15.  When two rows of the filtered table carry the same period, the
    run ends at the first pivot: the page shows the four metrics and the
    monthly-trends chart of the filtered table and ends with the heading
    of the year-comparison tab; no later chart or table is drawn. *)
Theorem page_when_a_period_is_duplicated (env : Env) (m : list MonthlyRow)
    (s : list Summary.row) (a : list Averages.row) :
  loads env m s a → m ≠ [] →
  let f := filtered_data m (selected_range env m) in
  ¬ NoDup (periods f) →
  (run env).1 = Raised duplicate_entries
  ∧ filter (λ e, shows_data e = true) (page (run env).2) =
      metrics_and_trends f
  ∧ last (page (run env).2) =
      Some (St.markdown "### Year-over-Year Comparison").
Proof.
  intros Hl Hne f Hdup. subst f.
  destruct (pivots_agree (filtered_data m (selected_range env m)))
    as [Hp _].
  apply Hp in Hdup. run_loaded Hl Hne env. rewrite Hdup. script_step.
  done.
Qed.

Lemma page_when_a_period_is_duplicated_witness :
  (run (app_env duplicated_2018 untouched "2024-05-01")).1 =
    Raised duplicate_entries
  ∧ filter (λ e, shows_data e = true)
      (page (run (app_env duplicated_2018 untouched "2024-05-01")).2) =
      metrics_and_trends
        (filtered_data duplicated_2018
           (selected_range (app_env duplicated_2018 untouched "2024-05-01")
              duplicated_2018))
  ∧ last (page (run (app_env duplicated_2018 untouched "2024-05-01")).2) =
      Some (St.markdown "### Year-over-Year Comparison").
Proof.
  apply (page_when_a_period_is_duplicated _ duplicated_2018 [] []).
  - repeat split; reflexivity.
  - discriminate.
  - vm_compute. intros H. apply NoDup_cons in H as [H _].
    apply H. by left.
Defined.

(** X16.  When no two rows of the filtered table carry the same period,
    the run reaches its end and shows, in this order: the four metrics
    and the monthly-trends chart of the filtered table, the two pivots,
    the bar chart of the monthly-averages table as loaded, the box plot
    of the filtered table, the summary and monthly-averages tables as
    loaded, and the per-year table of the filtered table.  The last line
    of the page is the listing of the working directory. *)
Theorem page_of_a_complete_run (env : Env) (m : list MonthlyRow)
    (s : list Summary.row) (a : list Averages.row) :
  loads env m s a → m ≠ [] →
  let f := filtered_data m (selected_range env m) in
  NoDup (periods f) →
  ∃ (p : Pd.Pivot Z) (q : Pd.Pivot float64),
    yearly_comparison f = Some p ∧ yoy_pivot f = Some q
    ∧ filter (λ e, shows_data e = true) (page (run env).2) =
        metrics_and_trends f
        ++ [St.plotly_chart (YearComparison p);
            St.plotly_chart (YoYHeatmap q);
            St.plotly_chart
              (AverageBar (Averages.Month <$> a)
                 (Averages.Average_Arrests <$> a) (Averages.Std_Dev <$> a));
            St.plotly_chart (MonthlyBox (Month <$> f) (Arrests <$> f));
            St.dataframe (SummaryFrame s);
            St.dataframe (AveragesFrame a);
            St.dataframe (YearlyFrame (yearly_changes f))]
    ∧ last (page (run env).2) =
        Some (St.sidebar_write_list "Files in directory:" (listdir env)).
Proof.
  intros Hl Hne f Hnd. subst f.
  destruct (pivots_agree (filtered_data m (selected_range env m)))
    as [Hp Hq].
  destruct (yearly_comparison (filtered_data m (selected_range env m)))
    as [p |] eqn:Ep; [| by destruct (proj1 Hp eq_refl)].
  destruct (yoy_pivot (filtered_data m (selected_range env m)))
    as [q |] eqn:Eq; [| by destruct (proj1 Hq eq_refl)].
  exists p, q. split; [done |]. split; [done |].
  run_loaded Hl Hne env. rewrite Ep. script_step. rewrite Eq. script_step.
  done.
Qed.

Lemma page_of_a_complete_run_witness :
  ∃ (p : Pd.Pivot Z) (q : Pd.Pivot float64),
    yearly_comparison january_2019 = Some p
    ∧ yoy_pivot january_2019 = Some q
    ∧ filter (λ e, shows_data e = true)
        (page (run (app_env january_2019 untouched "2024-06-30")).2) =
        metrics_and_trends january_2019
        ++ [St.plotly_chart (YearComparison p);
            St.plotly_chart (YoYHeatmap q);
            St.plotly_chart (AverageBar [] [] []);
            St.plotly_chart (MonthlyBox [1] [15]);
            St.dataframe (SummaryFrame []);
            St.dataframe (AveragesFrame []);
            St.dataframe (YearlyFrame (yearly_changes january_2019))]
    ∧ last (page (run (app_env january_2019 untouched "2024-06-30")).2) =
        Some (St.sidebar_write_list "Files in directory:" []).
Proof.
  apply (page_of_a_complete_run
           (app_env january_2019 untouched "2024-06-30")
           january_2019 [] []).
  - repeat split; reflexivity.
  - discriminate.
  - apply (bool_decide_unpack _). vm_compute. exact I.
Defined.

(** ** The trend symbol, continued *)

Section Trend.

Local Open Scope Qc_scope.

Lemma Qc_sum_pos (qs : list Qc) :
  qs ≠ [] → Forall (λ q, 0 < q) qs → 0 < Qc_sum qs.
Proof.
  intros Hne Hall. induction Hall as [| q qs Hq Hall IH]; [done |].
  cbn [Qc_sum foldr]. fold (Qc_sum qs). destruct qs as [| q' qs'].
  - cbn. by rewrite Qcplus_0_r.
  - apply Qcplus_pos_pos; [done |]. by apply IH.
Qed.

Lemma Qc_sum_nonpos (qs : list Qc) :
  Forall (λ q, q ≤ 0) qs → Qc_sum qs ≤ 0.
Proof.
  induction 1 as [| q qs Hq _ IH]; [done |].
  cbn [Qc_sum foldr]. fold (Qc_sum qs). by apply Qcplus_nonpos_nonpos.
Qed.

(** X17.  When the year-over-year changes that are present in the range
    are numbers, the trend follows their sign: the rising chart when all
    of them are positive, the falling chart when none of them is. *)
Theorem trend_follows_the_sign (f : list MonthlyRow) (qs : list Qc) :
  present (YoY_Change <$> f) = Fin <$> qs → qs ≠ [] →
  (Forall (λ q, 0 < q) qs → trend f = ChartIncreasing)
  ∧ (Forall (λ q, q ≤ 0) qs → trend f = ChartDecreasing).
Proof.
  intros Hp Hne. unfold trend, yoy_change.
  rewrite (float_mean_finite _ qs Hp Hne). cbn [fgt].
  assert (0 < / Qc_of_Z (Z.of_nat (length qs))) as Hinv.
  { apply Qcinv_pos, Qc_of_nat_pos. by destruct qs. }
  unfold Qc_mean, Qcdiv. split; intros Hall.
  - rewrite bool_decide_true; [done |].
    apply Qcmult_pos_pos; [by apply Qc_sum_pos | done].
  - rewrite bool_decide_false; [done |].
    apply Qcle_not_lt.
    rewrite <- (Qcmult_0_l (/ Qc_of_Z (Z.of_nat (length qs)))).
    apply Qcmult_le_mono_nonneg_r; [by apply Qclt_le_weak |].
    by apply Qc_sum_nonpos.
Qed.

Lemma trend_follows_the_sign_witness :
  trend one_cell_empty = ChartIncreasing.
Proof.
  apply (proj1 (trend_follows_the_sign one_cell_empty
                  [Qc_of_Z 50; Qc_of_Z 10] eq_refl ltac:(discriminate))).
  repeat constructor.
Defined.

End Trend.
